(** * A todo-list client: the REST layer, the [useTodos] hook and its context

    A shallow embedding of [src/api/todoApi.ts], [src/hooks/useTodos.ts],
    [src/hooks/useTodoContext.ts], [src/context/todo.context.ts],
    [src/providers/todo.provider.tsx] and [src/types.ts], and of the
    components that show the list: [ErrorMessage], [TodoForm], [TodoItem]
    and [TodosSection].

    Conventions of the embedding.
    - A JavaScript [number] that is used as an identifier, a priority or an
      HTTP status is an integer, [Z]; its conversion to a string inside a
      template literal is the decimal notation ([pretty]), as JavaScript
      writes the safe integers. A string is a sequence of bytes (the UTF-8
      text).
    - The code is embedded at its declared types: a parsed body is read at
      the type the code ascribes to it, and the list cell of the hook holds
      a list of todos. Nothing checks these types when the code runs; the
      module [erased] has the operations of the API as they run, handing
      back the parsed body as it is, and the statements on the hook and on
      the components are about the runs in which the bodies have the
      declared shape.
    - A [Promise<T>] that has settled is a value of [Promise T]; an [async]
      function is a computation in the monad [Async], which threads the
      world (the hook's state cells, the remote server, a journal of the
      effects performed) and short-circuits on a rejection.
    - The journal lists, in program order, every effect the modelled code
      performs: calls of [fetch], of the [console], and of the three state
      setters.
    - A state setter takes effect at once on the cell; the value a closure
      of the hook reads from a cell is the one of the render that made the
      closure. While an operation of the hook waits for the API, the other
      tasks of the page may update the cells: their net effect is the
      function [concurrent] of the environment, and every statement holds
      for every such function. *)

From Stdlib Require Import ZArith Ascii String.
From stdpp Require Import base list strings pretty.

Set Default Proof Using "Type".
Set Warnings "-register-all".

(** ** [src/types.ts] *)

Record Todo : Type := mkTodo {
  id : Z;
  name : string;
  completed : bool;
  description : option string;
  priority : option Z;
}.

(** ** JSON texts, as [JSON.stringify] writes them *)

Inductive Json : Type :=
| JNull
| JBool (b : bool)
| JNumber (n : Z)
| JString (s : string)
| JArray (items : list Json)
| JObject (props : list (string * Json)).

Definition dquote : ascii := "034"%char.
Definition backslash : ascii := "092"%char.

Definition hex_digit (n : N) : ascii :=
  match n with
  | 0 => "0" | 1 => "1" | 2 => "2" | 3 => "3" | 4 => "4" | 5 => "5"
  | 6 => "6" | 7 => "7" | 8 => "8" | 9 => "9" | 10 => "a" | 11 => "b"
  | 12 => "c" | 13 => "d" | 14 => "e" | _ => "f"
  end%char%N.

(** One character of a quoted JSON string: the two-character escapes, the
    [\u00XX] form for the other control characters, anything else as is. *)
Definition quote_char (c : ascii) : string :=
  let n := N_of_ascii c in
  if (n =? 8)%N then "\b"
  else if (n =? 9)%N then "\t"
  else if (n =? 10)%N then "\n"
  else if (n =? 12)%N then "\f"
  else if (n =? 13)%N then "\r"
  else if (n =? 34)%N then String backslash (String dquote EmptyString)
  else if (n =? 92)%N then String backslash (String backslash EmptyString)
  else if (n <? 32)%N then
    "\u00" +:+ String (hex_digit (n / 16)) (String (hex_digit (n mod 16)) EmptyString)
  else String c EmptyString.

Fixpoint quote_chars (s : string) : string :=
  match s with
  | EmptyString => EmptyString
  | String c rest => quote_char c +:+ quote_chars rest
  end.

Definition quote (s : string) : string :=
  String dquote (quote_chars s +:+ String dquote EmptyString).

(** The value of a lower-case hexadecimal digit. *)
Definition hex_value (c : ascii) : option N :=
  let n := N_of_ascii c in
  if ((48 <=? n) && (n <=? 57))%N then Some (n - 48)%N
  else if ((97 <=? n) && (n <=? 102))%N then Some (n - 87)%N
  else None.

(** Reads one character back from the front of a quoted string, with what
    follows it: the inverse of [quote_char], by which a quoted string
    determines the string that was quoted. *)
Definition unquote_char (s : string) : option (ascii * string) :=
  match s with
  | EmptyString => None
  | String c rest =>
      if Ascii.eqb c backslash then
        match rest with
        | String "b" rest' => Some ("008"%char, rest')
        | String "t" rest' => Some ("009"%char, rest')
        | String "n" rest' => Some ("010"%char, rest')
        | String "f" rest' => Some ("012"%char, rest')
        | String "r" rest' => Some ("013"%char, rest')
        | String "u" (String "0" (String "0" (String x (String y rest')))) =>
            match hex_value x, hex_value y with
            | Some hx, Some hy => Some (ascii_of_N (16 * hx + hy), rest')
            | _, _ => None
            end
        | String k rest' =>
            if Ascii.eqb k dquote then Some (dquote, rest')
            else if Ascii.eqb k backslash then Some (backslash, rest')
            else None
        | EmptyString => None
        end
      else Some (c, rest)
  end.

Fixpoint join_with (sep : string) (parts : list string) : string :=
  match parts with
  | [] => EmptyString
  | [p] => p
  | p :: rest => p +:+ sep +:+ join_with sep rest
  end.

Fixpoint JSON_stringify (j : Json) : string :=
  match j with
  | JNull => "null"
  | JBool true => "true"
  | JBool false => "false"
  | JNumber n => pretty n
  | JString s => quote s
  | JArray items => "[" +:+ join_with "," (map JSON_stringify items) +:+ "]"
  | JObject props =>
      "{" +:+ join_with ","
                (map (fun kv => quote (fst kv) +:+ ":" +:+ JSON_stringify (snd kv)) props)
          +:+ "}"
  end.

(** ** The type [Todo] on the values that run *)

(** The property [key] of a parsed object; of two members of one name
    [JSON.parse] keeps the later. *)
Fixpoint property (key : string) (props : list (string * Json)) : option Json :=
  match props with
  | [] => None
  | (k, v) :: rest =>
      match property key rest with
      | Some later => Some later
      | None => if decide (k = key) then Some v else None
      end
  end.

(** A parsed value read as a [Todo]: it is one exactly when it has the
    shape the type declares, an object whose [id] is a number, whose
    [name] is a string, whose [completed] is a boolean, and whose
    [description] and [priority], where present, are a string and a
    number. Members of other names do not matter. *)
Definition Todo_of_json (j : Json) : option Todo :=
  match j with
  | JObject props =>
      match property "id" props, property "name" props,
            property "completed" props with
      | Some (JNumber i), Some (JString n), Some (JBool c) =>
          match property "description" props, property "priority" props with
          | None, None => Some (mkTodo i n c None None)
          | Some (JString d), None => Some (mkTodo i n c (Some d) None)
          | None, Some (JNumber p) => Some (mkTodo i n c None (Some p))
          | Some (JString d), Some (JNumber p) => Some (mkTodo i n c (Some d) (Some p))
          | _, _ => None
          end
      | _, _, _ => None
      end
  | _ => None
  end.

(** The object a [Todo] is, with the members that are present. *)
Definition Todo_to_json (t : Todo) : Json :=
  JObject ([("id", JNumber (id t)); ("name", JString (name t));
            ("completed", JBool (completed t))]
           ++ match description t with
              | Some d => [("description", JString d)]
              | None => []
              end
           ++ match priority t with
              | Some p => [("priority", JNumber p)]
              | None => []
              end).

(** ** Exceptions and settled promises *)

(** [APIError] is the class declared in [todoApi.ts]; an exception of any
    other class (the [TypeError] of [fetch], the [SyntaxError] of
    [response.json()], a plain [Error]) is [OtherError], with its [name]
    and [message]. *)
Inductive Exn : Type :=
| APIError (message : string)
| OtherError (name message : string).

Definition Exn_name (e : Exn) : string :=
  match e with APIError _ => "APIError" | OtherError n _ => n end.

Definition Exn_message (e : Exn) : string :=
  match e with APIError m => m | OtherError _ m => m end.

Definition is_APIError (e : Exn) : bool :=
  match e with APIError _ => true | OtherError _ _ => false end.

Inductive Promise (A : Type) : Type :=
| Resolved (value : A)
| Rejected (reason : Exn).
Arguments Resolved {A} value.
Arguments Rejected {A} reason.

(** ** The Fetch API, as far as the client uses it *)

(** The second argument of [fetch]; an absent member is [None] (or [[]]). *)
Record RequestInit : Type := mkInit {
  method : option string;
  headers : list (string * string);
  body : option string;
}.

Definition no_init : RequestInit := mkInit None [] None.

(** The method of the request [fetch] sends: [GET] unless [init] names one. *)
Definition request_method (init : RequestInit) : string :=
  default "GET" (method init).

(** The static types at which the client reads a response body. *)
Inductive BodyType : Type := ArrayOfTodo | OneTodo | Unknown.

Definition typed (T : BodyType) : Type :=
  match T with
  | ArrayOfTodo => list Todo
  | OneTodo => Todo
  | Unknown => Json
  end.

(** TypeScript's [any], the type of a parsed body: a value that is read at
    whatever type the caller ascribes to it, unchecked. *)
Definition any : Type := forall T : BodyType, typed T.

(** The value a parsed body is at the type [T], where it has the shape of
    [T]: an array of values of the shape of a todo, a value of the shape
    of a todo, any value at all. *)
Definition Todos_of_json (j : Json) : option (list Todo) :=
  match j with
  | JArray items => mapM Todo_of_json items
  | _ => None
  end.

Definition shape_of (T : BodyType) (j : Json) : option (typed T) :=
  match T with
  | ArrayOfTodo => Todos_of_json j
  | OneTodo => Todo_of_json j
  | Unknown => Some j
  end.

(** A parsed body whose reading at [T] is the value the body is. *)
Definition has_shape (T : BodyType) (parsed : any) : Prop :=
  shape_of T (parsed Unknown) = Some (parsed T).

(** What [response.json()] settles to: the parsed body, or the rejection of
    a body that is not a JSON text. *)
Inductive Body : Type :=
| Parsed (value : any)
| NotJson (message : string).

(** A [Response]: its status and its body. *)
Record Response : Type := mkResponse {
  status : Z;
  json : Body;
}.

(** [response.ok]: the status is in the range 200-299. *)
Definition ok (response : Response) : bool :=
  bool_decide (200 ≤ status response ≤ 299)%Z.

(** What [fetch] settles to: a response (of any status), or a rejection
    when no response was obtained. *)
Inductive FetchResult : Type :=
| Responded (response : Response)
| Failed (name message : string).

(** ** The hook's state cells and React's setters *)

Module Store.
Record t : Type := mk {
  todos : list Todo;
  isLoading : bool;
  error : option string;
}.
(** [useState([])], [useState(false)], [useState(null)]. *)
Definition initial : t := mk [] false None.
End Store.

(** The argument of a state setter: the next value, or a function of the
    previous one. *)
Inductive SetStateAction (S : Type) : Type :=
| Value (next : S)
| Updater (f : S -> S).
Arguments Value {S} next.
Arguments Updater {S} f.

Definition applyAction {S : Type} (a : SetStateAction S) (prev : S) : S :=
  match a with
  | Value next => next
  | Updater f => f prev
  end.

(** ** The world an [async] function runs in *)

Inductive Logged : Type :=
| LoggedExn (e : Exn)
| LoggedJson (j : Json).

Inductive Event : Type :=
| Fetch (input : string) (init : RequestInit)
| ConsoleLog (v : Logged)
| ConsoleError (v : Logged)
| SetTodos (a : SetStateAction (list Todo))
| SetIsLoading (a : SetStateAction bool)
| SetError (a : SetStateAction (option string)).

(** The surroundings of the client: the remote server, which answers each
    request from its own state, and the other tasks of the page, whose
    state updates land while an [async] function of the hook is suspended
    at its [await]. *)
Class Environment : Type := {
  Server : Type;
  respond : string -> RequestInit -> Server -> FetchResult * Server;
  concurrent : Store.t -> Store.t;
}.

Section Client.
Context `{Environment}.

Record World : Type := mkWorld {
  store : Store.t;
  server : Server;
  journal : list Event;
}.

Definition Async (A : Type) : Type := World -> Promise A * World.

#[export] Instance Async_ret : MRet Async :=
  fun A a w => (Resolved a, w).

#[export] Instance Async_bind : MBind Async :=
  fun A B f m w =>
    match m w with
    | (Resolved a, w') => f a w'
    | (Rejected e, w') => (Rejected e, w')
    end.

Definition throw {A : Type} (e : Exn) : Async A :=
  fun w => (Rejected e, w).

(** [try { body } catch (err) { handler } finally { final }]. *)
Definition try_catch_finally {A : Type}
    (body : Async A) (handler : Exn -> Async A) (final : Async unit) : Async A :=
  fun w =>
    let '(r, w1) :=
      match body w with
      | (Resolved a, w') => (Resolved a, w')
      | (Rejected e, w') => handler e w'
      end in
    match final w1 with
    | (Resolved _, w2) => (r, w2)
    | (Rejected e, w2) => (Rejected e, w2)
    end.

Definition perform (ev : Event) (f : Store.t -> Store.t) : Async unit :=
  fun w => (Resolved (), mkWorld (f (store w)) (server w) (journal w ++ [ev])).

Definition console_log (v : Logged) : Async unit := perform (ConsoleLog v) (fun s => s).
Definition console_error (v : Logged) : Async unit := perform (ConsoleError v) (fun s => s).

Definition setTodos (a : SetStateAction (list Todo)) : Async unit :=
  perform (SetTodos a)
    (fun s => Store.mk (applyAction a (Store.todos s)) (Store.isLoading s) (Store.error s)).

Definition setIsLoading (a : SetStateAction bool) : Async unit :=
  perform (SetIsLoading a)
    (fun s => Store.mk (Store.todos s) (applyAction a (Store.isLoading s)) (Store.error s)).

Definition setError (a : SetStateAction (option string)) : Async unit :=
  perform (SetError a)
    (fun s => Store.mk (Store.todos s) (Store.isLoading s) (applyAction a (Store.error s))).

(** [fetch(input, init)]: the request goes out, the server answers. *)
Definition fetch (input : string) (init : RequestInit) : Async Response :=
  fun w =>
    let '(answer, server') := respond input init (server w) in
    let w' := mkWorld (store w) server' (journal w ++ [Fetch input init]) in
    match answer with
    | Responded response => (Resolved response, w')
    | Failed n m => (Rejected (OtherError n m), w')
    end.

(** [response.json()]. *)
Definition Response_json (response : Response) : Async any :=
  match json response with
  | Parsed v => mret v
  | NotJson m => throw (OtherError "SyntaxError" m)
  end.

(** [await p] inside the hook: [p] settles, and the updates of the other
    tasks have landed by the time the function resumes. *)
Definition await {A : Type} (p : Async A) : Async A :=
  fun w =>
    let '(r, w') := p w in
    (r, mkWorld (concurrent (store w')) (server w') (journal w')).

End Client.

(** ** [src/api/todoApi.ts] *)

Module todoApi.
Section Api.
Context `{Environment}.

Definition API_URL : string := "https://eli-workshop.vercel.app/api/users/nerv01/todos".

Definition handleResponse (T : BodyType) (response : Response) : Async (typed T) :=
  if negb (ok response)
  then throw (APIError ("API failed " +:+ pretty (status response)))
  else (parsed ← Response_json response; mret (parsed T)).

Definition fetchTodos : Async (list Todo) :=
  response ← fetch API_URL no_init;
  handleResponse ArrayOfTodo response.

Definition createTodo (newTodo : string) : Async Todo :=
  let body := JObject [("name", JString newTodo)] in
  response ← fetch API_URL
    (mkInit (Some "POST") [("Content-type", "application/json")]
       (Some (JSON_stringify body)));
  handleResponse OneTodo response.

Definition fetchTodo (todoId : Z) : Async Todo :=
  response ← fetch (API_URL +:+ "/" +:+ pretty todoId) no_init;
  handleResponse OneTodo response.

Definition deleteTodo (todoId : Z) : Async Json :=
  response ← fetch (API_URL +:+ "/" +:+ pretty todoId)
    (mkInit (Some "DELETE") [] None);
  handleResponse Unknown response.

Definition toggleTodo (todoId : Z) (isCompleted : bool) : Async Todo :=
  let body := JObject [("completed", JBool isCompleted)] in
  console_log (LoggedJson body);;
  response ← fetch (API_URL +:+ "/" +:+ pretty todoId)
    (mkInit (Some "PATCH") [("Content-type", "application/json")]
       (Some (JSON_stringify body)));
  handleResponse OneTodo response.

End Api.
End todoApi.

(** The operations of [todoApi] as they run. TypeScript's annotations are
    erased before the code runs, so [handleResponse<T>] is the same
    function for every [T]: it hands back what [response.json()] gave, the
    parsed body itself, which is what the body reads as at [Unknown]. *)
Module erased.
Section Api.
Context `{Environment}.

Definition handleResponse (response : Response) : Async Json :=
  todoApi.handleResponse Unknown response.

Definition fetchTodos : Async Json :=
  response ← fetch todoApi.API_URL no_init;
  handleResponse response.

Definition createTodo (newTodo : string) : Async Json :=
  let body := JObject [("name", JString newTodo)] in
  response ← fetch todoApi.API_URL
    (mkInit (Some "POST") [("Content-type", "application/json")]
       (Some (JSON_stringify body)));
  handleResponse response.

Definition fetchTodo (todoId : Z) : Async Json :=
  response ← fetch (todoApi.API_URL +:+ "/" +:+ pretty todoId) no_init;
  handleResponse response.

Definition deleteTodo (todoId : Z) : Async Json :=
  response ← fetch (todoApi.API_URL +:+ "/" +:+ pretty todoId)
    (mkInit (Some "DELETE") [] None);
  handleResponse response.

Definition toggleTodo (todoId : Z) (isCompleted : bool) : Async Json :=
  let body := JObject [("completed", JBool isCompleted)] in
  console_log (LoggedJson body);;
  response ← fetch (todoApi.API_URL +:+ "/" +:+ pretty todoId)
    (mkInit (Some "PATCH") [("Content-type", "application/json")]
       (Some (JSON_stringify body)));
  handleResponse response.

End Api.
End erased.

(** ** [src/context/todo.context.ts] *)

(** A React context, and [useContext] under the values of the enclosing
    providers of that context, the nearest first. *)
Record Context (A : Type) : Type := createContext { defaultValue : A }.
Arguments createContext {A} defaultValue.
Arguments defaultValue {A} c.

Definition useContext {A : Type} (context : Context A) (providers : list A) : A :=
  hd (defaultValue context) providers.

Module TodosContext.
Section Value.
Context `{Environment}.
Record t : Type := mk {
  todos : list Todo;
  isLoading : bool;
  error : option string;
  addTodo : string -> Async unit;
  toggleTodo : Todo -> Async unit;
  deleteTodo : Z -> Async unit;
  refetch : Async unit;
}.
Definition context : Context (option t) := createContext None.
End Value.
End TodosContext.

(** ** [src/hooks/useTodos.ts] *)

(** The closures of one render of the hook; [todos] is the value of the
    state cell at that render. *)
Module Hook.
Section Render.
Context `{Environment}.
Variable todos : list Todo.

Definition fetchTodos : Async unit :=
  setError (Value None);;
  setIsLoading (Value true);;
  try_catch_finally
    (data ← await todoApi.fetchTodos;
     setTodos (Value data))
    (fun err =>
       console_error (LoggedExn err);;
       setError (Value (Some "failed to load todos")))
    (setIsLoading (Value false)).

Definition addTodo (todoName : string) : Async unit :=
  setError (Value None);;
  setIsLoading (Value true);;
  try_catch_finally
    (newTodo ← await (todoApi.createTodo todoName);
     setTodos (Updater (fun prevTodos => prevTodos ++ [newTodo])))
    (fun err =>
       console_error (LoggedExn err);;
       setError (Value (Some "failed to add todos")))
    (setIsLoading (Value false)).

Definition deleteTodo (todoId : Z) : Async unit :=
  setError (Value None);;
  setIsLoading (Value true);;
  try_catch_finally
    (await (todoApi.deleteTodo todoId);;
     setTodos (Updater (fun _ => filter (fun todo => id todo ≠ todoId) todos)))
    (fun err =>
       console_error (LoggedExn err);;
       setError (Value (Some "failed to delete todo")))
    (setIsLoading (Value false)).

Definition toggleTodo (todo : Todo) : Async unit :=
  setError (Value None);;
  setIsLoading (Value true);;
  try_catch_finally
    (updatedTodo ← await (todoApi.toggleTodo (id todo) (negb (completed todo)));
     setTodos (Updater (fun prevTodos =>
       (fun prevTodo =>
          if decide (id prevTodo = id todo) then updatedTodo else prevTodo)
       <$> prevTodos)))
    (fun err =>
       console_log (LoggedExn err);;
       setError (Value (Some "failed to toggle todo")))
    (setIsLoading (Value false)).

End Render.
End Hook.

(** ** Calls that overlap *)

(** An [async] function runs up to its [await] when it is called, and the
    rest of it runs once the awaited promise has settled; between the two
    the page goes on, and other calls can begin. This is [deleteTodo] cut
    at its [await]: [deleteTodo_begin] is the part that runs at the call,
    the two setter calls and the request of [todoApi.deleteTodo], and it
    yields what the promise of the API call settles to; [deleteTodo_resume]
    is the part that runs when that has reached the function. *)
Section Suspended.
Context `{Environment}.

(** The call [p] is made, and its promise is kept, not awaited; the
    request goes out, and the server takes it, at the call. *)
Definition called {A : Type} (p : Async A) : Async (Promise A) :=
  fun w => let '(answer, w') := p w in (Resolved answer, w').

(** A promise that has settled, to [answer]. *)
Definition settled {A : Type} (answer : Promise A) : Async A :=
  fun w => (answer, w).

Definition deleteTodo_begin (todoId : Z) : Async (Promise Json) :=
  setError (Value None);;
  setIsLoading (Value true);;
  called (todoApi.deleteTodo todoId).

Definition deleteTodo_resume (todos : list Todo) (todoId : Z)
    (answer : Promise Json) : Async unit :=
  try_catch_finally
    (await (settled answer);;
     setTodos (Updater (fun _ => filter (fun todo => id todo ≠ todoId) todos)))
    (fun err =>
       console_error (LoggedExn err);;
       setError (Value (Some "failed to delete todo")))
    (setIsLoading (Value false)).

(** Two calls of [deleteTodo] made on one render, the second before the
    first has come back: the first parts run at the two calls, and the
    second parts as the answers arrive, in the order of the calls or in
    the other order. *)
Definition deleteTodo_twice (todos : list Todo) (id1 id2 : Z)
    (answers_in_order : bool) : Async unit :=
  answer1 ← deleteTodo_begin id1;
  answer2 ← deleteTodo_begin id2;
  if answers_in_order
  then deleteTodo_resume todos id1 answer1;; deleteTodo_resume todos id2 answer2
  else deleteTodo_resume todos id2 answer2;; deleteTodo_resume todos id1 answer1.

End Suspended.

Section UseTodos.
Context `{Environment}.

(** One render of [useTodos], from the current values of its three cells. *)
Definition useTodos (cells : Store.t) : TodosContext.t :=
  TodosContext.mk
    (Store.todos cells)
    (Store.isLoading cells)
    (Store.error cells)
    Hook.addTodo
    Hook.toggleTodo
    (Hook.deleteTodo (Store.todos cells))
    Hook.fetchTodos.

(** [useEffect(() => { fetchTodos(); }, [])]: run once, after the first
    render. *)
Definition mount_effect : Async unit := Hook.fetchTodos.

(** ** [src/providers/todo.provider.tsx] *)

(** The children of [TodoProvider] see its value before those of the
    providers further out. *)
Definition TodoProvider (cells : Store.t) (providers : list (option TodosContext.t))
    : list (option TodosContext.t) :=
  Some (useTodos cells) :: providers.

(** ** [src/hooks/useTodoContext.ts] *)

Definition useTodoContext (providers : list (option TodosContext.t))
    : Exn + TodosContext.t :=
  let context := useContext TodosContext.context providers in
  match context with
  | None => inl (OtherError "Error" "nejakej error")
  | Some value => inr value
  end.

End UseTodos.

(** ** The components: [src/components/error.tsx],
    [src/components/todos/todo-form.tsx], [todo-list.tsx] and
    [todos-section.tsx] *)

Section Components.
Context `{Environment}.

(** An attribute of a JSX element: a string-valued one, a click handler,
    or the change handler of an input, given as what it does to the state
    it sets from [event.target.value]. *)
Inductive Attribute : Type :=
| Attr (attribute value : string)
| OnClick (handler : Async unit)
| OnChange (handler : string -> SetStateAction string).

(** What a component returns: the tree of elements, with the components
    of this repository rendered in place and the others ([Link],
    [Spinner]) left as elements of their name. A child that is [null] or
    [false] is left out; [Keyed] carries the [key] of a list item. *)
Inductive Node : Type :=
| Text (s : string)
| Element (tag : string) (attrs : list Attribute) (children : list Node)
| Keyed (key : Z) (child : Node).

Definition ErrorMessage (message : string) (onDissmiss : option (Async unit)) : Node :=
  Element "div" [Attr "className" "error-message"]
    ([Element "div" [Attr "className" "error-content"]
        [Element "span" [Attr "className" "error-icon"] [Text "!"];
         Element "span" [] [Text message]]]
     ++ match onDissmiss with
        | Some handler =>
            [Element "button" [Attr "className" "error-dissmiss"; OnClick handler]
               [Text "Refetch"]]
        | None => []
        end).

(** [todoName] is the value of the form's own state cell, [useState('')],
    at this render. *)
Definition TodoForm (addTodo : string -> Async unit) (todoName : string) : Node :=
  let handleInputChange := fun value : string => Value value in
  let handleSubmit := addTodo todoName in
  Element "div" [Attr "className" "input-group"]
    [Element "input"
       [Attr "value" todoName; OnChange handleInputChange;
        Attr "name" "todo-text"; Attr "placeholder" "What needs to be done?"] [];
     Element "button" [OnClick handleSubmit; Attr "type" "submit"] [Text "Add"]].

Definition TodoItem (providers : list (option TodosContext.t)) (todo : Todo)
    : Exn + Node :=
  match useTodoContext providers with
  | inl thrown => inl thrown
  | inr context =>
      inr (Element "li"
             [Attr "className" (if completed todo then "completed" else "")]
             [Element "span" [] [Text (name todo)];
              Element "button"
                [OnClick (TodosContext.deleteTodo context (id todo))] [Text "Delete"];
              Element "button"
                [Attr "className" "toggle";
                 OnClick (TodosContext.toggleTodo context todo)]
                [Text (if completed todo then "Undo" else "Complete")];
              Element "Link"
                [Attr "to" ("/todos/" +:+ pretty (id todo)); Attr "className" "link"]
                [Text "Go to detail"]])
  end.

(** The children of a list, rendered in order; the first that throws ends
    the rendering. *)
Fixpoint render_each (render : Todo -> Exn + Node) (todos : list Todo)
    : Exn + list Node :=
  match todos with
  | [] => inr []
  | todo :: rest =>
      match render todo with
      | inl thrown => inl thrown
      | inr item =>
          match render_each render rest with
          | inl thrown => inl thrown
          | inr items => inr (Keyed (id todo) item :: items)
          end
      end
  end.

(** [error && <ErrorMessage ... />]: nothing for [null], the empty string
    itself for the empty string, the element otherwise. *)
Definition TodosSection (providers : list (option TodosContext.t)) (todoName : string)
    : Exn + Node :=
  match useTodoContext providers with
  | inl thrown => inl thrown
  | inr context =>
      let todos := TodosContext.todos context in
      let isLoading := TodosContext.isLoading context in
      match render_each (TodoItem providers) todos with
      | inl thrown => inl thrown
      | inr items =>
          inr (Element "main" []
                 (match TodosContext.error context with
                  | None => []
                  | Some EmptyString => [Text EmptyString]
                  | Some error =>
                      [ErrorMessage error (Some (TodosContext.refetch context))]
                  end
                  ++ [TodoForm (TodosContext.addTodo context) todoName;
                      Element "div" [Attr "className" "todo-container"]
                        ([Element "ul"
                            [Attr "id" "todo-list";
                             Attr "className" (if isLoading then "isLoading" else "")]
                            items]
                         ++ (if isLoading && (length todos =? 0)%nat
                             then [Element "Spinner" [] []]
                             else []))]))
      end
  end.

End Components.

(** * Vocabulary of the statements *)

Section Observations.
Context `{Environment}.

(** What an [async] function's promise settles to, and the world it
    leaves, when it is called in the world [w]. *)
Definition outcome {A : Type} (m : Async A) (w : World) : Promise A := (m w).1.
Definition after {A : Type} (m : Async A) (w : World) : World := (m w).2.

(** The state cells once an operation of the hook has made its two
    opening setter calls, and the cells it finds when it resumes after its
    [await]. *)
Definition pending (cells : Store.t) : Store.t :=
  Store.mk (Store.todos cells) true None.

Definition resumed (w : World) : Store.t := concurrent (pending (store w)).

End Observations.

(** The requests of a journal, oldest first; the calls of the list setter;
    the calls of the loading-flag setter. *)
Definition requests (j : list Event) : list (string * RequestInit) :=
  omap (fun ev => match ev with Fetch input init => Some (input, init) | _ => None end) j.

Definition list_updates (j : list Event) : list (SetStateAction (list Todo)) :=
  omap (fun ev => match ev with SetTodos a => Some a | _ => None end) j.

Definition loading_updates (j : list Event) : list (SetStateAction bool) :=
  omap (fun ev => match ev with SetIsLoading a => Some a | _ => None end) j.

(** The integers that a JavaScript number holds exactly
    ([Number.isSafeInteger]); a template literal writes them in decimal
    digits, as [pretty] does. *)
Definition safe_integer (n : Z) : Prop := (- 2 ^ 53 < n < 2 ^ 53)%Z.

(** The events of the five operations of [todoApi]. *)
Definition list_request : Event := Fetch todoApi.API_URL no_init.

Definition add_request (todoName : string) : Event :=
  Fetch todoApi.API_URL
    (mkInit (Some "POST") [("Content-type", "application/json")]
       (Some (JSON_stringify (JObject [("name", JString todoName)])))).

Definition detail_request (todoId : Z) : Event :=
  Fetch (todoApi.API_URL +:+ "/" +:+ pretty todoId) no_init.

Definition delete_request (todoId : Z) : Event :=
  Fetch (todoApi.API_URL +:+ "/" +:+ pretty todoId) (mkInit (Some "DELETE") [] None).

Definition toggle_request (todoId : Z) (isCompleted : bool) : Event :=
  Fetch (todoApi.API_URL +:+ "/" +:+ pretty todoId)
    (mkInit (Some "PATCH") [("Content-type", "application/json")]
       (Some (JSON_stringify (JObject [("completed", JBool isCompleted)])))).

Definition toggle_log (isCompleted : bool) : Event :=
  ConsoleLog (LoggedJson (JObject [("completed", JBool isCompleted)])).

Section Vocabulary.
Context `{Environment}.

(** An operation [op] of the API sends the request [input], [init] and
    settles as [handleResponse] does on the response, or as [fetch] does
    when there is none. *)
Definition settles_by_rule (T : BodyType) (op : Async (typed T))
    (input : string) (init : RequestInit) : Prop :=
  ∀ w : World,
    match (respond input init (server w)).1 with
    | Responded response =>
        outcome op w = outcome (todoApi.handleResponse T response) w
    | Failed n m => outcome op w = Rejected (OtherError n m)
    end.

(** The computation [op] sends exactly one request, [input] with [init]. *)
Definition sends_exactly {A : Type} (op : Async A) (input : string)
    (init : RequestInit) : Prop :=
  ∀ w : World,
    requests (journal (after op w)) = requests (journal w) ++ [(input, init)].

(** The requests that [op], called in the world [w], adds to the journal. *)
Definition sent {A : Type} (op : Async A) (w : World) : list (string * RequestInit) :=
  drop (length (requests (journal w))) (requests (journal (after op w))).

(** In the world [w] the server answers the request [input], [init] with a
    response that is ok and whose body parses, to [parsed]. *)
Definition answered (input : string) (init : RequestInit) (w : World)
    (parsed : any) : Prop :=
  ∃ response,
    (respond input init (server w)).1 = Responded response
    ∧ ok response = true
    ∧ json response = Parsed parsed.

(** An operation of the API as it runs ([op]) and as it is typed
    ([typed_op]): the two do the same to the world and are rejected alike,
    and when the request [input], [init] is answered with a body, [op]
    resolves with that body as it is, of whatever shape, which is
    what [typed_op] resolves with, read at the type [T]. *)
Definition returns_unchecked (T : BodyType) (typed_op : Async (typed T))
    (op : Async Json) (input : string) (init : RequestInit) : Prop :=
  ∀ w : World,
    after op w = after typed_op w
    ∧ (∀ e, outcome op w = Rejected e ↔ outcome typed_op w = Rejected e)
    ∧ (∀ parsed, answered input init w parsed →
         outcome op w = Resolved (parsed Unknown)
         ∧ outcome typed_op w = Resolved (parsed T)).

(** A call that talks to the server only: it appends [evs] to the journal,
    leaves the cells alone, and its result and the server's next state
    depend on the server's state alone. *)
Definition remote_call {A : Type} (call : Async A) (evs : list Event) : Prop :=
  ∀ s : Server, ∃ (r : Promise A) (s' : Server),
    ∀ cells j, call (mkWorld cells s j) = (r, mkWorld cells s' (j ++ evs)).

(** The pattern the four operations of the hook are written in. *)
Definition guarded {A : Type} (call : Async A)
    (update : A -> SetStateAction (list Todo))
    (log : Logged -> Event) (message : string) : Async unit :=
  setError (Value None);;
  setIsLoading (Value true);;
  try_catch_finally
    (x ← await call;
     setTodos (update x))
    (fun err =>
       perform (log (LoggedExn err)) (fun s => s);;
       setError (Value (Some message)))
    (setIsLoading (Value false)).

(** The operation [op] of the hook wraps one API call, whose events are
    [evs]: it resets the error, raises the loading flag, makes the call,
    and whatever it does next sends nothing and ends by lowering the flag. *)
Definition brackets (op : Async unit) (evs : list Event) : Prop :=
  ∀ w : World, ∃ closing : list Event,
    journal (after op w)
    = journal w ++ [SetError (Value None); SetIsLoading (Value true)] ++ evs
        ++ closing ++ [SetIsLoading (Value false)]
    ∧ requests closing = []
    ∧ loading_updates closing = []
    ∧ Store.isLoading (store (after op w)) = false.

(** An operation of the hook begins by resetting the error. *)
Definition resets_error_first (op : Async unit) : Prop :=
  ∀ w : World, ∃ rest : list Event,
    journal (after op w) = journal w ++ SetError (Value None) :: rest.

(** What an operation of the hook does when its API call is rejected:
    after the two opening setter calls and the events [evs] of the one
    call, it logs the exception, sets the error to [message] and lowers the
    loading flag; its own promise resolves. *)
Definition reports (op : Async unit) (evs : list Event) (logged : Event)
    (message : string) (w : World) : Prop :=
  journal (after op w)
  = journal w ++ [SetError (Value None); SetIsLoading (Value true)] ++ evs
      ++ [logged; SetError (Value (Some message)); SetIsLoading (Value false)]
  ∧ Store.error (store (after op w)) = Some message
  ∧ outcome op w = Resolved ().

(** What a rejected API call leaves of the cells: the list as the cell
    held it when the operation resumed, which is the list from before the
    call if no other task has set it meanwhile; the operation itself never
    calls the list setter. *)
Definition leaves_list (op : Async unit) (message : string) (w : World) : Prop :=
  store (after op w) = Store.mk (Store.todos (resumed w)) false (Some message)
  ∧ list_updates (journal (after op w)) = list_updates (journal w)
  ∧ (Store.todos (resumed w) = Store.todos (store w) →
     Store.todos (store (after op w)) = Store.todos (store w)).

End Vocabulary.

(** ** Reading a rendered tree, and acting on it *)

Section Views.
Context `{Environment}.

(** The text a node shows. *)
Fixpoint text_of (n : Node) : string :=
  match n with
  | Text s => s
  | Element _ _ children =>
      (fix texts (l : list Node) : string :=
         match l with
         | [] => EmptyString
         | child :: rest => text_of child +:+ texts rest
         end) children
  | Keyed _ child => text_of child
  end.

Definition click_handler (attrs : list Attribute) : option (Async unit) :=
  head (omap (fun a => match a with OnClick h => Some h | _ => None end) attrs).

Definition attribute (key : string) (attrs : list Attribute) : option string :=
  head (omap (fun a => match a with
                       | Attr k v => if decide (k = key) then Some v else None
                       | _ => None
                       end) attrs).

(** The buttons of a tree that react to a click, in document order, each
    with its label and with what a click on it runs. *)
Fixpoint buttons (n : Node) : list (string * Async unit) :=
  match n with
  | Text _ => []
  | Element tag attrs children =>
      match click_handler attrs with
      | Some handler =>
          if decide (tag = "button") then [(text_of n, handler)] else []
      | None => []
      end
      ++ concat (map buttons children)
  | Keyed _ child => buttons child
  end.

(** The elements of a tree with the tag [tag], in document order, each
    with its attributes. *)
Fixpoint elements (tag : string) (n : Node) : list (list Attribute) :=
  match n with
  | Text _ => []
  | Element tag' attrs children =>
      (if decide (tag' = tag) then [attrs] else [])
      ++ concat (map (elements tag) children)
  | Keyed _ child => elements tag child
  end.

(** The keys of the list items of a tree, in document order. *)
Fixpoint keys (n : Node) : list Z :=
  match n with
  | Text _ => []
  | Element _ _ children => concat (map keys children)
  | Keyed key child => key :: keys child
  end.

(** The list items of a tree, in document order: the key of each with the
    buttons inside it. *)
Fixpoint item_buttons (n : Node) : list (Z * list (string * Async unit)) :=
  match n with
  | Text _ => []
  | Element _ _ children => concat (map item_buttons children)
  | Keyed key child => [(key, buttons child)]
  end.

(** The change handlers of the inputs of a tree. *)
Fixpoint change_handlers (n : Node) : list (string -> SetStateAction string) :=
  match n with
  | Text _ => []
  | Element _ attrs children =>
      omap (fun a => match a with OnChange h => Some h | _ => None end) attrs
      ++ concat (map change_handlers children)
  | Keyed _ child => change_handlers child
  end.

(** The page as React shows it once the cells hold [cells] and the form's
    cell holds [todoName]: the section, under the provider of a render of
    the hook from [cells]. *)
Definition page (cells : Store.t) (todoName : string) : Exn + Node :=
  TodosSection (TodoProvider cells []) todoName.

(** What a user can ask of the hook through the context. *)
Inductive Action : Type :=
| Refetch
| AddTodo (todoName : string)
| ToggleTodo (todo : Todo)
| DeleteTodo (todoId : Z).

(** One action, taken on the render of the cells as they are when it is
    taken, and run to its end; and a series of actions, each taken when the
    one before has ended. *)
Definition dispatch (a : Action) : Async unit :=
  fun w =>
    let context := useTodos (store w) in
    match a with
    | Refetch => TodosContext.refetch context
    | AddTodo todoName => TodosContext.addTodo context todoName
    | ToggleTodo todo => TodosContext.toggleTodo context todo
    | DeleteTodo todoId => TodosContext.deleteTodo context todoId
    end w.

Fixpoint session (actions : list Action) : Async unit :=
  match actions with
  | [] => mret ()
  | a :: rest => dispatch a;; session rest
  end.

(** The label of the toggle button of an item. *)
Definition toggle_label (todo : Todo) : string :=
  if completed todo then "Undo" else "Complete".

(** The string the hook sets the error to when the action fails. *)
Definition message_of (a : Action) : string :=
  match a with
  | Refetch => "failed to load todos"
  | AddTodo _ => "failed to add todos"
  | ToggleTodo _ => "failed to toggle todo"
  | DeleteTodo _ => "failed to delete todo"
  end.

End Views.

(** * Environments and data for the worked examples *)

(** A server that gives the same [answer] to every request, beside tasks
    whose net effect on the cells is [others]. *)
Definition scripted (answer : FetchResult) (others : Store.t -> Store.t) : Environment :=
  {| Server := unit;
     respond := fun _ _ s => (answer, s);
     concurrent := others |}.

(** No other task at work. *)
Definition alone (answer : FetchResult) : Environment :=
  scripted answer (fun cells => cells).

Definition milk : Todo := mkTodo 1 "milk" false None None.
Definition bread : Todo := mkTodo 2 "bread" true (Some "wholegrain") (Some 3%Z).
Definition milk_done : Todo := mkTodo 1 "milk" true None None.

(** Another task appends [bread] to the list. *)
Definition adds_bread (cells : Store.t) : Store.t :=
  Store.mk (Store.todos cells ++ [bread]) (Store.isLoading cells) (Store.error cells).

(** A parsed body that reads as [t] wherever a todo is expected. *)
Definition body_of (t : Todo) : any :=
  fun T =>
    match T with
    | ArrayOfTodo => [t]
    | OneTodo => t
    | Unknown => JObject [("id", JNumber (id t)); ("name", JString (name t));
                          ("completed", JBool (completed t))]
    end.

Definition answers (t : Todo) : FetchResult :=
  Responded (mkResponse 200 (Parsed (body_of t))).

(** A parsed body of any shape. Read at a type whose shape it has, it is
    the todo, or the todos, that it is; at a type whose shape it has not,
    the reading is no value of that type, and an empty one stands for
    it. *)
Definition read_as (j : Json) : any :=
  fun T =>
    match T with
    | ArrayOfTodo => default [] (Todos_of_json j)
    | OneTodo => default (mkTodo 0 "" false None None) (Todo_of_json j)
    | Unknown => j
    end.

(** The server accepts the request and answers with an object that is
    not a todo. *)
Definition quota_reply : Json := JObject [("error", JString "quota exceeded")].
Definition refuses_politely : FetchResult :=
  Responded (mkResponse 200 (Parsed (read_as quota_reply))).

Definition no_content : Response := mkResponse 204 (NotJson "Unexpected end of JSON input").
Definition not_found : Response := mkResponse 404 (NotJson "Unexpected token < in JSON").
Definition offline : FetchResult := Failed "TypeError" "Failed to fetch".

Definition start (E : Environment) (s : @Server E) (cells : list Todo) : @World E :=
  mkWorld (Store.mk cells false None) s [].

(** * Properties *)

(** Unfolds the monad and the primitives, leaving the case analysis on the
    server's answer and on the response. *)
Ltac unfold_async :=
  unfold outcome, after, resumed, pending, guarded,
    todoApi.fetchTodos, todoApi.createTodo, todoApi.fetchTodo,
    todoApi.deleteTodo, todoApi.toggleTodo, todoApi.handleResponse,
    Response_json, fetch, await, try_catch_finally,
    setTodos, setIsLoading, setError, console_log, console_error, perform,
    throw, mbind, mret, Async_bind, Async_ret in *;
  cbn [fst snd store server journal applyAction
       Store.todos Store.isLoading Store.error negb] in *.

Ltac split_answer :=
  repeat (match goal with
          | |- context [respond ?i ?n ?s] =>
              destruct (respond i n s) as [[?response|? ?] ?] eqn:?
          | |- context [ok ?r] => destruct (ok r) eqn:?
          | |- context [json ?r] => destruct (json r) eqn:?
          end;
          cbn [fst snd store server journal negb] in *).

(** ** JSON texts *)

Lemma string_app_assoc (s1 s2 s3 : string) :
  (s1 +:+ s2) +:+ s3 = s1 +:+ (s2 +:+ s3).
Proof.
  induction s1 as [|c s1 IH]; [reflexivity|].
  change (String c ((s1 +:+ s2) +:+ s3) = String c (s1 +:+ (s2 +:+ s3))).
  by rewrite IH.
Qed.

Lemma string_app_inv_head (s t1 t2 : string) : s +:+ t1 = s +:+ t2 → t1 = t2.
Proof.
  induction s as [|c s IH]; [done|].
  change (String c (s +:+ t1) = String c (s +:+ t2) → t1 = t2).
  intros [= Heq]. by apply IH.
Qed.

Lemma unquote_quote_char c t : unquote_char (quote_char c +:+ t) = Some (c, t).
Proof. by destruct c as [[] [] [] [] [] [] [] []]. Qed.

(** Two quoted strings that agree up to their closing quotes quote the
    same string. *)
Lemma quote_chars_inj s1 : ∀ s2 r1 r2,
  quote_chars s1 +:+ String dquote r1 = quote_chars s2 +:+ String dquote r2 →
  s1 = s2 ∧ r1 = r2.
Proof.
  induction s1 as [|c1 s1 IH]; intros [|c2 s2] r1 r2; cbn [quote_chars String.append].
  - by intros [= ->].
  - intros Heq. pose proof (f_equal unquote_char Heq) as Hc.
    rewrite string_app_assoc, unquote_quote_char in Hc.
    change (unquote_char (String dquote r1)) with (Some (dquote, r1)) in Hc.
    injection Hc as <- _. discriminate Heq.
  - intros Heq. pose proof (f_equal unquote_char Heq) as Hc.
    rewrite string_app_assoc, unquote_quote_char in Hc.
    change (unquote_char (String dquote r2)) with (Some (dquote, r2)) in Hc.
    injection Hc as -> _. discriminate Heq.
  - intros Heq. pose proof (f_equal unquote_char Heq) as Hc.
    rewrite !string_app_assoc, !unquote_quote_char in Hc.
    injection Hc as -> Hrest. by destruct (IH _ _ _ Hrest) as [-> ->].
Qed.

Lemma quote_inj s1 s2 : quote s1 = quote s2 → s1 = s2.
Proof. unfold quote. intros [= Heq]. by destruct (quote_chars_inj _ _ _ _ Heq). Qed.

(** ** The API layer *)

Section ApiLemmas.
Context `{Environment}.

(** [handleResponse] leaves the world alone, and what it settles to does
    not depend on the world. *)
Lemma handleResponse_after T response w :
  after (todoApi.handleResponse T response) w = w.
Proof. unfold_async. by split_answer. Qed.

Lemma handleResponse_outcome_world T response w1 w2 :
  outcome (todoApi.handleResponse T response) w1
  = outcome (todoApi.handleResponse T response) w2.
Proof. unfold_async. by split_answer. Qed.

(** The shape every operation of [todoApi] has: one [fetch], whose
    response goes through [handleResponse]. *)
Lemma fetch_then_handle T input init w :
  (response ← fetch input init; todoApi.handleResponse T response) w
  = (match (respond input init (server w)).1 with
     | Responded response => outcome (todoApi.handleResponse T response) w
     | Failed n m => Rejected (OtherError n m)
     end,
     mkWorld (store w) (respond input init (server w)).2
             (journal w ++ [Fetch input init])).
Proof. unfold_async. by split_answer. Qed.

Lemma fetch_then_handle_rule T input init :
  settles_by_rule T (response ← fetch input init; todoApi.handleResponse T response)
    input init.
Proof.
  intros w. unfold outcome at 1 3. rewrite fetch_then_handle. cbn [fst].
  by destruct (respond input init (server w)).1.
Qed.

Lemma toggleTodo_rule todoId isCompleted :
  settles_by_rule OneTodo (todoApi.toggleTodo todoId isCompleted)
    (todoApi.API_URL +:+ "/" +:+ pretty todoId)
    (mkInit (Some "PATCH") [("Content-type", "application/json")]
       (Some (JSON_stringify (JObject [("completed", JBool isCompleted)])))).
Proof. intros w. unfold_async. by split_answer. Qed.

Lemma fetch_remote input init T :
  remote_call (response ← fetch input init; todoApi.handleResponse T response)
    [Fetch input init].
Proof.
  intros s.
  eexists (match (respond input init s).1 with
           | Responded response =>
               outcome (todoApi.handleResponse T response)
                 (mkWorld Store.initial s [])
           | Failed n m => Rejected (OtherError n m)
           end), (respond input init s).2.
  intros cells j. rewrite fetch_then_handle. cbn [server store journal].
  f_equal. destruct (respond input init s).1; [|done].
  apply handleResponse_outcome_world.
Qed.

Lemma fetchTodos_remote : remote_call todoApi.fetchTodos [list_request].
Proof. exact (fetch_remote todoApi.API_URL no_init ArrayOfTodo). Qed.

Lemma createTodo_remote newTodo :
  remote_call (todoApi.createTodo newTodo) [add_request newTodo].
Proof. exact (fetch_remote _ _ OneTodo). Qed.

Lemma fetchTodo_remote todoId :
  remote_call (todoApi.fetchTodo todoId) [detail_request todoId].
Proof. exact (fetch_remote _ _ OneTodo). Qed.

Lemma deleteTodo_remote todoId :
  remote_call (todoApi.deleteTodo todoId) [delete_request todoId].
Proof. exact (fetch_remote _ _ Unknown). Qed.

Lemma toggleTodo_remote todoId isCompleted :
  remote_call (todoApi.toggleTodo todoId isCompleted)
    [toggle_log isCompleted; toggle_request todoId isCompleted].
Proof.
  intros s.
  destruct (fetch_remote (todoApi.API_URL +:+ "/" +:+ pretty todoId)
    (mkInit (Some "PATCH") [("Content-type", "application/json")]
       (Some (JSON_stringify (JObject [("completed", JBool isCompleted)]))))
    OneTodo s) as (r & s' & Hrun).
  exists r, s'. intros cells j.
  unfold todoApi.toggleTodo, console_log, perform.
  unfold mbind at 1. unfold Async_bind at 1. cbn [store server journal].
  rewrite Hrun. by rewrite <- app_assoc.
Qed.

Lemma remote_call_run {A} (call : Async A) evs w :
  remote_call call evs →
  ∀ cells j,
    call (mkWorld cells (server w) j)
    = (outcome call w, mkWorld cells (server (after call w)) (j ++ evs)).
Proof.
  intros Hremote cells j. destruct (Hremote (server w)) as (r & s' & Hrun).
  unfold outcome, after. destruct w as [c s j0]; cbn [server] in *.
  by rewrite !Hrun.
Qed.

Lemma remote_call_sends {A} (call : Async A) evs input init :
  remote_call call evs → requests evs = [(input, init)] →
  sends_exactly call input init.
Proof.
  intros Hremote Hevs [cells s j]. unfold after.
  pose proof (remote_call_run call evs (mkWorld cells s j) Hremote cells j) as Hrun.
  cbn [server] in Hrun. rewrite Hrun.
  cbn [snd journal]. unfold requests in *. by rewrite omap_app, Hevs.
Qed.

End ApiLemmas.

Section HookLemmas.
Context `{Environment}.

(** The four operations are instances of the one pattern. *)
Lemma fetchTodos_is_guarded :
  Hook.fetchTodos
  = guarded todoApi.fetchTodos (fun data => Value data)
      ConsoleError "failed to load todos".
Proof. reflexivity. Qed.

Lemma addTodo_is_guarded todoName :
  Hook.addTodo todoName
  = guarded (todoApi.createTodo todoName)
      (fun newTodo => Updater (fun prevTodos => prevTodos ++ [newTodo]))
      ConsoleError "failed to add todos".
Proof. reflexivity. Qed.

Lemma deleteTodo_is_guarded todos todoId :
  Hook.deleteTodo todos todoId
  = guarded (todoApi.deleteTodo todoId)
      (fun _ => Updater (fun _ => filter (fun todo => id todo ≠ todoId) todos))
      ConsoleError "failed to delete todo".
Proof. reflexivity. Qed.

Lemma toggleTodo_is_guarded todo :
  Hook.toggleTodo todo
  = guarded (todoApi.toggleTodo (id todo) (negb (completed todo)))
      (fun updatedTodo => Updater (fun prevTodos =>
         (fun prevTodo =>
            if decide (id prevTodo = id todo) then updatedTodo else prevTodo)
         <$> prevTodos))
      ConsoleLog "failed to toggle todo".
Proof. reflexivity. Qed.

(** The run of a guarded call, by the result of the call. *)
Lemma guarded_resolved {A} (call : Async A) update log message evs w x :
  remote_call call evs →
  outcome call w = Resolved x →
  guarded call update log message w
  = (Resolved (),
     mkWorld
       (Store.mk (applyAction (update x) (Store.todos (resumed w)))
                 false (Store.error (resumed w)))
       (server (after call w))
       (journal w ++ [SetError (Value None); SetIsLoading (Value true)] ++ evs
          ++ [SetTodos (update x); SetIsLoading (Value false)])).
Proof.
  intros Hremote Hx. unfold_async.
  rewrite (remote_call_run call evs w Hremote). unfold outcome. rewrite Hx.
  cbn [fst snd store server journal applyAction Store.todos Store.error].
  do 2 f_equal. by rewrite <- !app_assoc.
Qed.

Lemma guarded_rejected {A} (call : Async A) update log message evs w e :
  remote_call call evs →
  outcome call w = Rejected e →
  guarded call update log message w
  = (Resolved (),
     mkWorld
       (Store.mk (Store.todos (resumed w)) false (Some message))
       (server (after call w))
       (journal w ++ [SetError (Value None); SetIsLoading (Value true)] ++ evs
          ++ [log (LoggedExn e); SetError (Value (Some message));
              SetIsLoading (Value false)])).
Proof.
  intros Hremote He. unfold_async.
  rewrite (remote_call_run call evs w Hremote). unfold outcome. rewrite He.
  cbn [fst snd store server journal applyAction Store.todos Store.error].
  do 2 f_equal. by rewrite <- !app_assoc.
Qed.

Lemma guarded_brackets {A} (call : Async A) update log message evs :
  remote_call call evs →
  (∀ v, log v = ConsoleError v) ∨ (∀ v, log v = ConsoleLog v) →
  brackets (guarded call update log message) evs.
Proof.
  intros Hremote Hlog w. unfold after.
  destruct (outcome call w) as [x|e] eqn:Hcall.
  - rewrite (guarded_resolved call update log message evs w x Hremote Hcall).
    exists [SetTodos (update x)]. by cbn [snd journal store Store.isLoading].
  - rewrite (guarded_rejected call update log message evs w e Hremote Hcall).
    exists [log (LoggedExn e); SetError (Value (Some message))].
    cbn [snd journal store Store.isLoading].
    by destruct Hlog as [-> | ->].
Qed.

Lemma brackets_resets_error_first op evs :
  brackets op evs → resets_error_first op.
Proof.
  intros Hop w. destruct (Hop w) as (closing & Hj & _).
  eexists. rewrite Hj. reflexivity.
Qed.

Lemma guarded_reports {A} (call : Async A) update log message evs w e :
  remote_call call evs →
  outcome call w = Rejected e →
  reports (guarded call update log message) evs (log (LoggedExn e)) message w.
Proof.
  intros Hremote He. unfold reports, after, outcome.
  by rewrite (guarded_rejected call update log message evs w e Hremote He).
Qed.

Lemma guarded_leaves_list {A} (call : Async A) update log message evs w e :
  remote_call call evs →
  list_updates evs = [] →
  (∀ v, list_updates [log v] = []) →
  outcome call w = Rejected e →
  leaves_list (guarded call update log message) message w.
Proof.
  intros Hremote Hevs Hlog He. unfold leaves_list, after.
  rewrite (guarded_rejected call update log message evs w e Hremote He).
  cbn [snd store journal Store.todos]. split; [done|]. split; [|done].
  change [log (LoggedExn e); SetError (Value (Some message)); SetIsLoading (Value false)]
    with ([log (LoggedExn e)]
          ++ [SetError (Value (Some message)); SetIsLoading (Value false)]).
  unfold list_updates in *. rewrite !omap_app, Hevs, Hlog. cbn.
  by rewrite !app_nil_r.
Qed.

Lemma fetchTodos_brackets : brackets Hook.fetchTodos [list_request].
Proof.
  rewrite fetchTodos_is_guarded.
  apply guarded_brackets; [apply fetchTodos_remote | by left].
Qed.

Lemma addTodo_brackets todoName :
  brackets (Hook.addTodo todoName) [add_request todoName].
Proof.
  rewrite addTodo_is_guarded.
  apply guarded_brackets; [apply createTodo_remote | by left].
Qed.

Lemma deleteTodo_brackets todos todoId :
  brackets (Hook.deleteTodo todos todoId) [delete_request todoId].
Proof.
  rewrite deleteTodo_is_guarded.
  apply guarded_brackets; [apply deleteTodo_remote | by left].
Qed.

Lemma toggleTodo_brackets todo :
  brackets (Hook.toggleTodo todo)
    [toggle_log (negb (completed todo));
     toggle_request (id todo) (negb (completed todo))].
Proof.
  rewrite toggleTodo_is_guarded.
  apply guarded_brackets; [apply toggleTodo_remote | by right].
Qed.

End HookLemmas.

Section Claims.
Context `{Environment}.

(** C1: when the API call of [toggleTodo(todo)] resolves with
    [updatedTodo], the one request sent is the PATCH of the todo's URL whose
    body carries [!todo.completed], and the list is updated in place: it
    keeps its length, an element whose id differs from that of [todo] stays
    as it is and where it is, and an element whose id is that of [todo] is
    replaced by [updatedTodo]. *)
Theorem toggleTodo_replaces_in_place (todo : Todo) (w : World) (updatedTodo : Todo) :
  outcome (todoApi.toggleTodo (id todo) (negb (completed todo))) w = Resolved updatedTodo →
  let w' := after (Hook.toggleTodo todo) w in
  let prevTodos := Store.todos (resumed w) in
  requests (journal w')
  = requests (journal w)
      ++ [(todoApi.API_URL +:+ "/" +:+ pretty (id todo),
           mkInit (Some "PATCH") [("Content-type", "application/json")]
             (Some (JSON_stringify
                      (JObject [("completed", JBool (negb (completed todo)))]))))]
  ∧ length (Store.todos (store w')) = length prevTodos
  ∧ (∀ i prevTodo, prevTodos !! i = Some prevTodo → id prevTodo ≠ id todo →
       Store.todos (store w') !! i = Some prevTodo)
  ∧ (∀ i prevTodo, prevTodos !! i = Some prevTodo → id prevTodo = id todo →
       Store.todos (store w') !! i = Some updatedTodo).
Proof.
  intros Hcall w' prevTodos. subst w' prevTodos. unfold after.
  rewrite toggleTodo_is_guarded.
  rewrite (guarded_resolved _ _ _ _ _ w updatedTodo
             (toggleTodo_remote (id todo) (negb (completed todo))) Hcall).
  cbn [snd journal store Store.todos applyAction].
  split; [|split; [|split]].
  - unfold requests. by rewrite !omap_app.
  - by rewrite length_fmap.
  - intros i prevTodo Hi Hne. rewrite list_lookup_fmap, Hi. cbn.
    by rewrite decide_False.
  - intros i prevTodo Hi Heq. rewrite list_lookup_fmap, Hi. cbn.
    by rewrite decide_True.
Qed.

(** C2: when the API call of [addTodo(todoName)] resolves with [newTodo],
    the list becomes the previous list followed by [newTodo]: every
    previous todo stays at its position, one element is added, and it is
    the last. *)
Theorem addTodo_appends (todoName : string) (w : World) (newTodo : Todo) :
  outcome (todoApi.createTodo todoName) w = Resolved newTodo →
  let todos' := Store.todos (store (after (Hook.addTodo todoName) w)) in
  let prevTodos := Store.todos (resumed w) in
  todos' = prevTodos ++ [newTodo]
  ∧ (∀ i prevTodo, prevTodos !! i = Some prevTodo → todos' !! i = Some prevTodo)
  ∧ length todos' = S (length prevTodos)
  ∧ last todos' = Some newTodo.
Proof.
  intros Hcall todos' prevTodos. subst todos' prevTodos. unfold after.
  rewrite addTodo_is_guarded.
  rewrite (guarded_resolved _ _ _ _ _ w newTodo (createTodo_remote todoName) Hcall).
  cbn [snd journal store Store.todos applyAction].
  split; [done|split; [|split]].
  - intros i prevTodo Hi. by apply lookup_app_l_Some.
  - rewrite length_app. cbn. lia.
  - apply last_snoc.
Qed.

(** C3: each of the four operations begins by resetting the error to
    [null]; when its API call is rejected, what follows the one request is
    the logging of the exception, the setting of the error to the fixed
    string of the operation, and the lowering of the loading flag: no
    second request, no other state update, and the operation's own promise
    resolves. *)
Theorem useTodos_error_handling :
  (resets_error_first Hook.fetchTodos
   ∧ ∀ w e, outcome todoApi.fetchTodos w = Rejected e →
       reports Hook.fetchTodos [list_request]
         (ConsoleError (LoggedExn e)) "failed to load todos" w)
  ∧ (∀ todoName,
       resets_error_first (Hook.addTodo todoName)
       ∧ ∀ w e, outcome (todoApi.createTodo todoName) w = Rejected e →
           reports (Hook.addTodo todoName) [add_request todoName]
             (ConsoleError (LoggedExn e)) "failed to add todos" w)
  ∧ (∀ todos todoId,
       resets_error_first (Hook.deleteTodo todos todoId)
       ∧ ∀ w e, outcome (todoApi.deleteTodo todoId) w = Rejected e →
           reports (Hook.deleteTodo todos todoId) [delete_request todoId]
             (ConsoleError (LoggedExn e)) "failed to delete todo" w)
  ∧ (∀ todo,
       resets_error_first (Hook.toggleTodo todo)
       ∧ ∀ w e,
           outcome (todoApi.toggleTodo (id todo) (negb (completed todo))) w
           = Rejected e →
           reports (Hook.toggleTodo todo)
             [toggle_log (negb (completed todo));
              toggle_request (id todo) (negb (completed todo))]
             (ConsoleLog (LoggedExn e)) "failed to toggle todo" w).
Proof.
  split; [|split; [|split]].
  - split; [exact (brackets_resets_error_first _ _ fetchTodos_brackets)|].
    intros w e He. rewrite fetchTodos_is_guarded.
    by apply (guarded_reports _ _ ConsoleError), He; apply fetchTodos_remote.
  - intros todoName.
    split; [exact (brackets_resets_error_first _ _ (addTodo_brackets todoName))|].
    intros w e He. rewrite addTodo_is_guarded.
    by apply (guarded_reports _ _ ConsoleError), He; apply createTodo_remote.
  - intros todos todoId.
    split; [exact (brackets_resets_error_first _ _ (deleteTodo_brackets todos todoId))|].
    intros w e He. rewrite deleteTodo_is_guarded.
    by apply (guarded_reports _ _ ConsoleError), He; apply deleteTodo_remote.
  - intros todo.
    split; [exact (brackets_resets_error_first _ _ (toggleTodo_brackets todo))|].
    intros w e He. rewrite toggleTodo_is_guarded.
    by apply (guarded_reports _ _ ConsoleLog), He; apply toggleTodo_remote.
Qed.

(** C4, as the code has it: [handleResponse] never touches the world; it
    rejects with the [APIError] of message ['API failed <status>'] exactly
    when [response.ok] is false, and it rejects with an [APIError] in no
    other case; it resolves, with the parsed body, exactly when
    [response.ok] is true and the body parses; when [response.ok] is true
    and the body does not parse it rejects with the [SyntaxError] of
    [response.json()]. Each of the five operations of [todoApi] settles as
    [handleResponse] does on the response to its request, and as [fetch]
    does when there is no response. *)
Theorem handleResponse_rule :
  (∀ (T : BodyType) (response : Response) (w : World),
     after (todoApi.handleResponse T response) w = w
     ∧ (ok response = false ↔
        outcome (todoApi.handleResponse T response) w
        = Rejected (APIError ("API failed " +:+ pretty (status response))))
     ∧ (∀ e, outcome (todoApi.handleResponse T response) w = Rejected e →
          is_APIError e = true → ok response = false)
     ∧ (∀ v, outcome (todoApi.handleResponse T response) w = Resolved v ↔
          ok response = true ∧ ∃ parsed, json response = Parsed parsed ∧ v = parsed T)
     ∧ (∀ m, ok response = true → json response = NotJson m →
          outcome (todoApi.handleResponse T response) w
          = Rejected (OtherError "SyntaxError" m)))
  ∧ settles_by_rule ArrayOfTodo todoApi.fetchTodos todoApi.API_URL no_init
  ∧ (∀ newTodo,
       settles_by_rule OneTodo (todoApi.createTodo newTodo) todoApi.API_URL
         (mkInit (Some "POST") [("Content-type", "application/json")]
            (Some (JSON_stringify (JObject [("name", JString newTodo)])))))
  ∧ (∀ todoId,
       settles_by_rule OneTodo (todoApi.fetchTodo todoId)
         (todoApi.API_URL +:+ "/" +:+ pretty todoId) no_init)
  ∧ (∀ todoId,
       settles_by_rule Unknown (todoApi.deleteTodo todoId)
         (todoApi.API_URL +:+ "/" +:+ pretty todoId)
         (mkInit (Some "DELETE") [] None))
  ∧ (∀ todoId isCompleted,
       settles_by_rule OneTodo (todoApi.toggleTodo todoId isCompleted)
         (todoApi.API_URL +:+ "/" +:+ pretty todoId)
         (mkInit (Some "PATCH") [("Content-type", "application/json")]
            (Some (JSON_stringify (JObject [("completed", JBool isCompleted)]))))).
Proof.
  split.
  { intros T response w. split; [apply handleResponse_after|].
    unfold outcome, todoApi.handleResponse, Response_json, throw,
      mbind, mret, Async_bind, Async_ret.
    destruct (ok response) eqn:Hok; cbn [negb].
    - destruct (json response) as [parsed|msg] eqn:Hjson; cbn [fst].
      + split; [split; [done | intros [=]]|].
        split; [intros e [=]|].
        split; [|intros m _ [=]].
        intros v; split.
        * intros [= <-]. eauto.
        * by intros (_ & p & [= <-] & ->).
      + split; [split; [done | intros [=]]|].
        split; [by intros e [= <-] [=]|].
        split; [|by intros m _ [= ->]].
        intros v; split; [intros [=] | by intros (_ & p & [=] & _)].
    - cbn [fst].
      split; [done|]. split; [done|].
      split; [|by intros m [=]].
      intros v; split; [intros [=] | by intros ([=] & _)]. }
  split; [exact (fetch_then_handle_rule ArrayOfTodo _ _)|].
  split; [intros; exact (fetch_then_handle_rule OneTodo _ _)|].
  split; [intros; exact (fetch_then_handle_rule OneTodo _ _)|].
  split; [intros; exact (fetch_then_handle_rule Unknown _ _) | apply toggleTodo_rule].
Qed.

End Claims.

Section MoreClaims.
Context `{Environment}.

(** C5: a render of the hook exposes the three cells and the four
    operations; each operation wraps one call of the API (the list, the
    creation, the deletion, the toggle), raising the loading flag before
    the call and lowering it as its last step, whatever the call's
    result. *)
Theorem useTodos_loading_flag (cells : Store.t) :
  (TodosContext.todos (useTodos cells) = Store.todos cells
   ∧ TodosContext.isLoading (useTodos cells) = Store.isLoading cells
   ∧ TodosContext.error (useTodos cells) = Store.error cells)
  ∧ brackets (TodosContext.refetch (useTodos cells)) [list_request]
  ∧ (∀ todoName,
       brackets (TodosContext.addTodo (useTodos cells) todoName)
         [add_request todoName])
  ∧ (∀ todoId,
       brackets (TodosContext.deleteTodo (useTodos cells) todoId)
         [delete_request todoId])
  ∧ (∀ todo,
       brackets (TodosContext.toggleTodo (useTodos cells) todo)
         [toggle_log (negb (completed todo));
          toggle_request (id todo) (negb (completed todo))]).
Proof.
  split; [done|]. cbn [useTodos TodosContext.refetch TodosContext.addTodo
    TodosContext.deleteTodo TodosContext.toggleTodo].
  split; [apply fetchTodos_brackets|].
  split; [apply addTodo_brackets|].
  split; [intros; apply deleteTodo_brackets | apply toggleTodo_brackets].
Qed.

(** C6: each operation of [todoApi] sends exactly one request, whatever
    the answer: the list a GET of the todos URL, the creation a POST of
    the todos URL whose body is the JSON object with the name, the toggle
    a PATCH of the todo's URL whose body is the JSON object with the
    completed flag, the deletion a DELETE of the todo's URL, the detail a
    GET of the todo's URL. *)
Theorem todoApi_one_request_each :
  (sends_exactly todoApi.fetchTodos todoApi.API_URL no_init
   ∧ request_method no_init = "GET" ∧ body no_init = None)
  ∧ (∀ newTodo,
       let init := mkInit (Some "POST") [("Content-type", "application/json")]
         (Some ("{" +:+ quote "name" +:+ ":" +:+ quote newTodo +:+ "}")) in
       sends_exactly (todoApi.createTodo newTodo) todoApi.API_URL init
       ∧ request_method init = "POST"
       ∧ body init = Some (JSON_stringify (JObject [("name", JString newTodo)])))
  ∧ (∀ (todoId : Z) (isCompleted : bool),
       let init := mkInit (Some "PATCH") [("Content-type", "application/json")]
         (Some ("{" +:+ quote "completed" +:+ ":"
                +:+ (if isCompleted then "true" else "false") +:+ "}")) in
       sends_exactly (todoApi.toggleTodo todoId isCompleted)
         (todoApi.API_URL +:+ "/" +:+ pretty todoId) init
       ∧ request_method init = "PATCH"
       ∧ body init = Some (JSON_stringify (JObject [("completed", JBool isCompleted)])))
  ∧ (∀ todoId,
       let init := mkInit (Some "DELETE") [] None in
       sends_exactly (todoApi.deleteTodo todoId)
         (todoApi.API_URL +:+ "/" +:+ pretty todoId) init
       ∧ request_method init = "DELETE" ∧ body init = None)
  ∧ (∀ todoId,
       sends_exactly (todoApi.fetchTodo todoId)
         (todoApi.API_URL +:+ "/" +:+ pretty todoId) no_init).
Proof.
  split; [|split; [|split; [|split]]].
  - split; [|done]. by eapply remote_call_sends; [apply fetchTodos_remote|].
  - intros newTodo init. split; [|done].
    by eapply remote_call_sends; [apply createTodo_remote|].
  - intros todoId isCompleted init. split; [|by destruct isCompleted].
    eapply remote_call_sends; [apply toggleTodo_remote|].
    by destruct isCompleted.
  - intros todoId init. split; [|done].
    by eapply remote_call_sends; [apply deleteTodo_remote|].
  - intros todoId. by eapply remote_call_sends; [apply fetchTodo_remote|].
Qed.

(** The shape of a todo. *)
Lemma Todo_of_json_to_json (t : Todo) : Todo_of_json (Todo_to_json t) = Some t.
Proof. by destruct t as [i n c [d|] [p|]]. Qed.

Lemma Todo_of_json_members (j : Json) (t : Todo) :
  Todo_of_json j = Some t →
  ∃ props, j = JObject props
    ∧ property "id" props = Some (JNumber (id t))
    ∧ property "name" props = Some (JString (name t))
    ∧ property "completed" props = Some (JBool (completed t))
    ∧ property "description" props = JString <$> description t
    ∧ property "priority" props = JNumber <$> priority t.
Proof.
  destruct j as [| | | | |props]; try done. cbn [Todo_of_json]. intros Hshape.
  exists props. split; [done|].
  destruct (property "id" props) as [[]|]; try done.
  destruct (property "name" props) as [[]|]; try done.
  destruct (property "completed" props) as [[]|]; try done.
  destruct (property "description" props) as [[]|];
    destruct (property "priority" props) as [[]|]; try done;
    by injection Hshape as <-.
Qed.

(** The operations of the API do not look at the body they hand back. *)
Lemma fetch_returns_unchecked T input init :
  returns_unchecked T
    (response ← fetch input init; todoApi.handleResponse T response)
    (response ← fetch input init; erased.handleResponse response)
    input init.
Proof.
  intros w. unfold erased.handleResponse, outcome, after.
  rewrite !(fetch_then_handle T), !(fetch_then_handle Unknown).
  cbn [fst snd]. split; [done|]. split.
  - intros e.
    destruct (respond input init (server w)).1 as [response|];
      [|by split; intros [= <-]].
    unfold_async. split_answer; by split; intros [= <-].
  - intros parsed (response & -> & Hok & Hjson).
    unfold_async. by rewrite Hok, Hjson.
Qed.

Lemma answered_resolves T input init w parsed :
  answered input init w parsed →
  outcome (response ← fetch input init; todoApi.handleResponse T response) w
  = Resolved (parsed T).
Proof.
  intros Hanswer.
  destruct (fetch_returns_unchecked T input init w) as (_ & _ & Hbody).
  by destruct (Hbody parsed Hanswer).
Qed.

Lemma toggleTodo_returns_unchecked todoId isCompleted :
  returns_unchecked OneTodo (todoApi.toggleTodo todoId isCompleted)
    (erased.toggleTodo todoId isCompleted)
    (todoApi.API_URL +:+ "/" +:+ pretty todoId)
    (mkInit (Some "PATCH") [("Content-type", "application/json")]
       (Some (JSON_stringify (JObject [("completed", JBool isCompleted)])))).
Proof.
  intros w. unfold erased.toggleTodo, erased.handleResponse.
  split; [|split].
  - unfold_async. by split_answer.
  - intros e. unfold_async. split_answer; by split; intros [= <-].
  - intros parsed (response & Hanswer & Hok & Hjson). unfold_async.
    destruct (respond _ _ (server w)) as [answer s'].
    cbn [fst] in Hanswer. subst answer. by rewrite Hok, Hjson.
Qed.

(** C7: a todo is an object with a numeric [id], a [name] that is a string,
    a boolean [completed], and a [description] and a [priority] that may
    each be absent. The operations are typed to take and to give values of
    this shape, and nothing checks it when they run: an operation of the
    API resolves with the parsed body of the answer as it is, of whatever
    shape, doing and failing as the typed operation does. Where the body
    has the shape, the hook puts the todos it is into the list as they
    are: [fetchTodos] (at mount as well) stores the array, [addTodo]
    appends the todo, [toggleTodo] puts it in the place of the todos of
    the toggled id; [deleteTodo] never looks at the body. Of the todo it
    takes, [toggleTodo] uses the [id] and the [completed] flag alone. *)
Theorem Todo_shape_is_unchecked :
  (∀ t : Todo, Todo_of_json (Todo_to_json t) = Some t)
  ∧ (∀ (j : Json) (t : Todo),
       Todo_of_json j = Some t →
       ∃ props, j = JObject props
         ∧ property "id" props = Some (JNumber (id t))
         ∧ property "name" props = Some (JString (name t))
         ∧ property "completed" props = Some (JBool (completed t))
         ∧ property "description" props = JString <$> description t
         ∧ property "priority" props = JNumber <$> priority t)
  ∧ returns_unchecked ArrayOfTodo todoApi.fetchTodos erased.fetchTodos
      todoApi.API_URL no_init
  ∧ (∀ newTodo,
       returns_unchecked OneTodo (todoApi.createTodo newTodo)
         (erased.createTodo newTodo) todoApi.API_URL
         (mkInit (Some "POST") [("Content-type", "application/json")]
            (Some (JSON_stringify (JObject [("name", JString newTodo)])))))
  ∧ (∀ todoId,
       returns_unchecked OneTodo (todoApi.fetchTodo todoId) (erased.fetchTodo todoId)
         (todoApi.API_URL +:+ "/" +:+ pretty todoId) no_init)
  ∧ (∀ todoId,
       returns_unchecked Unknown (todoApi.deleteTodo todoId) (erased.deleteTodo todoId)
         (todoApi.API_URL +:+ "/" +:+ pretty todoId) (mkInit (Some "DELETE") [] None))
  ∧ (∀ todoId isCompleted,
       returns_unchecked OneTodo (todoApi.toggleTodo todoId isCompleted)
         (erased.toggleTodo todoId isCompleted)
         (todoApi.API_URL +:+ "/" +:+ pretty todoId)
         (mkInit (Some "PATCH") [("Content-type", "application/json")]
            (Some (JSON_stringify (JObject [("completed", JBool isCompleted)])))))
  ∧ (∀ cells w parsed,
       answered todoApi.API_URL no_init w parsed →
       has_shape ArrayOfTodo parsed →
       Todos_of_json (parsed Unknown)
       = Some (Store.todos (store (after (TodosContext.refetch (useTodos cells)) w)))
       ∧ Todos_of_json (parsed Unknown)
         = Some (Store.todos (store (after mount_effect w))))
  ∧ (∀ cells todoName w parsed,
       answered todoApi.API_URL
         (mkInit (Some "POST") [("Content-type", "application/json")]
            (Some (JSON_stringify (JObject [("name", JString todoName)])))) w parsed →
       has_shape OneTodo parsed →
       ∃ newTodo,
         Todo_of_json (parsed Unknown) = Some newTodo
         ∧ Store.todos (store (after (TodosContext.addTodo (useTodos cells) todoName) w))
           = Store.todos (resumed w) ++ [newTodo])
  ∧ (∀ cells todo w parsed,
       answered (todoApi.API_URL +:+ "/" +:+ pretty (id todo))
         (mkInit (Some "PATCH") [("Content-type", "application/json")]
            (Some (JSON_stringify
                     (JObject [("completed", JBool (negb (completed todo)))]))))
         w parsed →
       has_shape OneTodo parsed →
       ∃ updatedTodo,
         Todo_of_json (parsed Unknown) = Some updatedTodo
         ∧ Store.todos (store (after (TodosContext.toggleTodo (useTodos cells) todo) w))
           = (fun prevTodo =>
                if decide (id prevTodo = id todo) then updatedTodo else prevTodo)
             <$> Store.todos (resumed w))
  ∧ (∀ cells todoId w parsed,
       answered (todoApi.API_URL +:+ "/" +:+ pretty todoId)
         (mkInit (Some "DELETE") [] None) w parsed →
       Store.todos (store (after (TodosContext.deleteTodo (useTodos cells) todoId) w))
       = filter (fun todo => id todo ≠ todoId) (Store.todos cells))
  ∧ (∀ cells todo todo' w,
       id todo = id todo' → completed todo = completed todo' →
       TodosContext.toggleTodo (useTodos cells) todo w
       = TodosContext.toggleTodo (useTodos cells) todo' w).
Proof.
  split; [exact Todo_of_json_to_json|]. split; [exact Todo_of_json_members|].
  split; [exact (fetch_returns_unchecked ArrayOfTodo _ _)|].
  split; [intros; exact (fetch_returns_unchecked OneTodo _ _)|].
  split; [intros; exact (fetch_returns_unchecked OneTodo _ _)|].
  split; [intros; exact (fetch_returns_unchecked Unknown _ _)|].
  split; [exact toggleTodo_returns_unchecked|].
  split; [|split; [|split; [|split]]].
  - intros cells w parsed Hanswer Hshape.
    pose proof (answered_resolves ArrayOfTodo _ _ _ _ Hanswer) as Hcall.
    assert (Store.todos (store (after Hook.fetchTodos w)) = parsed ArrayOfTodo) as Hlist.
    { unfold after. rewrite fetchTodos_is_guarded.
      by rewrite (guarded_resolved _ _ _ _ _ w _ fetchTodos_remote Hcall). }
    unfold mount_effect. cbn [useTodos TodosContext.refetch]. by rewrite Hlist.
  - intros cells todoName w parsed Hanswer Hshape.
    pose proof (answered_resolves OneTodo _ _ _ _ Hanswer) as Hcall.
    exists (parsed OneTodo). split; [done|].
    cbn [useTodos TodosContext.addTodo]. unfold after. rewrite addTodo_is_guarded.
    by rewrite (guarded_resolved _ _ _ _ _ w _ (createTodo_remote todoName) Hcall).
  - intros cells todo w parsed Hanswer Hshape.
    destruct (toggleTodo_returns_unchecked (id todo) (negb (completed todo)) w)
      as (_ & _ & Hbody).
    destruct (Hbody parsed Hanswer) as [_ Hcall].
    exists (parsed OneTodo). split; [done|].
    cbn [useTodos TodosContext.toggleTodo]. unfold after. rewrite toggleTodo_is_guarded.
    by rewrite (guarded_resolved _ _ _ _ _ w _ (toggleTodo_remote _ _) Hcall).
  - intros cells todoId w parsed Hanswer.
    pose proof (answered_resolves Unknown _ _ _ _ Hanswer) as Hcall.
    cbn [useTodos TodosContext.deleteTodo]. unfold after. rewrite deleteTodo_is_guarded.
    by rewrite (guarded_resolved _ _ _ _ _ w _ (deleteTodo_remote todoId) Hcall).
  - intros cells todo todo' w Hid Hcompleted.
    cbn [useTodos TodosContext.toggleTodo]. unfold Hook.toggleTodo.
    by rewrite Hid, Hcompleted.
Qed.

(** C8: the updater that [deleteTodo] hands to [setTodos] is a constant
    function: whatever list the cell holds when the update is applied
    (whatever the other tasks did meanwhile, and whatever world the
    operation was called in), the list becomes the list of the render the
    operation belongs to, in order, without the todos of id [todoId]. The
    updaters of [addTodo] and of [toggleTodo] start from the list the cell
    holds when they are applied. *)
Theorem deleteTodo_filters_captured_list (cells : Store.t) (todoId : Z) (w : World)
    (deleted : Json) :
  outcome (todoApi.deleteTodo todoId) w = Resolved deleted →
  let op := TodosContext.deleteTodo (useTodos cells) todoId in
  Store.todos (store (after op w))
  = filter (fun todo => id todo ≠ todoId) (Store.todos cells)
  ∧ (∃ f : list Todo → list Todo,
       list_updates (journal (after op w)) = list_updates (journal w) ++ [Updater f]
       ∧ ∀ prevTodos,
           f prevTodos = filter (fun todo => id todo ≠ todoId) (Store.todos cells))
  ∧ (∀ todoName newTodo,
       outcome (todoApi.createTodo todoName) w = Resolved newTodo →
       Store.todos (store (after (TodosContext.addTodo (useTodos cells) todoName) w))
       = Store.todos (resumed w) ++ [newTodo])
  ∧ (∀ todo updatedTodo,
       outcome (todoApi.toggleTodo (id todo) (negb (completed todo))) w
       = Resolved updatedTodo →
       Store.todos (store (after (TodosContext.toggleTodo (useTodos cells) todo) w))
       = (fun prevTodo =>
            if decide (id prevTodo = id todo) then updatedTodo else prevTodo)
         <$> Store.todos (resumed w)).
Proof.
  intros Hcall op. subst op.
  cbn [useTodos TodosContext.deleteTodo TodosContext.addTodo TodosContext.toggleTodo].
  unfold after. split; [|split; [|split]].
  - rewrite deleteTodo_is_guarded.
    by rewrite (guarded_resolved _ _ _ _ _ w deleted (deleteTodo_remote todoId) Hcall).
  - rewrite deleteTodo_is_guarded.
    rewrite (guarded_resolved _ _ _ _ _ w deleted (deleteTodo_remote todoId) Hcall).
    eexists. split; [|done]. cbn [snd journal]. unfold list_updates.
    by rewrite !omap_app.
  - intros todoName newTodo Hadd. rewrite addTodo_is_guarded.
    by rewrite (guarded_resolved _ _ _ _ _ w newTodo (createTodo_remote todoName) Hadd).
  - intros todo updatedTodo Htoggle. rewrite toggleTodo_is_guarded.
    by rewrite (guarded_resolved _ _ _ _ _ w updatedTodo
                  (toggleTodo_remote (id todo) (negb (completed todo))) Htoggle).
Qed.

(** C9: when the API call inside [addTodo], [deleteTodo] or [toggleTodo]
    is rejected, the operation does not set the list: of the cells it sets
    the error and the loading flag only. *)
Theorem failed_call_leaves_list (w : World) :
  (∀ todoName e, outcome (todoApi.createTodo todoName) w = Rejected e →
     leaves_list (Hook.addTodo todoName) "failed to add todos" w)
  ∧ (∀ todos todoId e, outcome (todoApi.deleteTodo todoId) w = Rejected e →
       leaves_list (Hook.deleteTodo todos todoId) "failed to delete todo" w)
  ∧ (∀ todo e,
       outcome (todoApi.toggleTodo (id todo) (negb (completed todo))) w = Rejected e →
       leaves_list (Hook.toggleTodo todo) "failed to toggle todo" w).
Proof.
  split; [|split].
  - intros todoName e He. rewrite addTodo_is_guarded.
    by eapply guarded_leaves_list, He; [apply createTodo_remote|..].
  - intros todos todoId e He. rewrite deleteTodo_is_guarded.
    by eapply guarded_leaves_list, He; [apply deleteTodo_remote|..].
  - intros todo e He. rewrite toggleTodo_is_guarded.
    by eapply guarded_leaves_list, He; [apply toggleTodo_remote|..].
Qed.

(** C10: [useTodoContext] throws exactly when the value of [TodosContext]
    it reads is [undefined], and the exception is the [Error] of the
    source; otherwise it returns that value. The default value of the
    context is [undefined], so the hook throws outside every provider;
    under a [TodoProvider] it returns what that provider's [useTodos]
    gave. *)
Theorem useTodoContext_throws_iff_undefined :
  (∀ providers,
     ((∃ e, useTodoContext providers = inl e)
      ↔ useContext TodosContext.context providers = None)
     ∧ (∀ e, useTodoContext providers = inl e → e = OtherError "Error" "nejakej error")
     ∧ (∀ value, useContext TodosContext.context providers = Some value ↔
          useTodoContext providers = inr value))
  ∧ defaultValue TodosContext.context = None
  ∧ useTodoContext [] = inl (OtherError "Error" "nejakej error")
  ∧ (∀ cells providers,
       useTodoContext (TodoProvider cells providers) = inr (useTodos cells)).
Proof.
  split; [|done]. intros providers. unfold useTodoContext.
  destruct (useContext TodosContext.context providers) as [value|].
  - split; [split; [by intros [e [=]] | intros [=]]|].
    split; [intros e [=]|].
    intros value'; split; [by intros [= ->] | by intros [= ->]].
  - split; [split; [done | eauto]|].
    split; [by intros e [= <-]|].
    intros value'; split; intros [=].
Qed.

End MoreClaims.

(** * Further properties *)

Section Further.
Context `{Environment}.

Lemma guarded_always_resolves {A} (call : Async A) update log message evs w :
  remote_call call evs → outcome (guarded call update log message) w = Resolved ().
Proof.
  intros Hremote. unfold outcome at 1.
  destruct (outcome call w) as [x|e] eqn:Hcall.
  - by rewrite (guarded_resolved call update log message evs w x Hremote Hcall).
  - by rewrite (guarded_rejected call update log message evs w e Hremote Hcall).
Qed.

(** X1: the promise of an operation of the hook always resolves: a rejection
    of the API call is caught, and nothing else in the operation throws. *)
Theorem useTodos_operations_always_resolve (w : World) :
  outcome Hook.fetchTodos w = Resolved ()
  ∧ (∀ todoName, outcome (Hook.addTodo todoName) w = Resolved ())
  ∧ (∀ todos todoId, outcome (Hook.deleteTodo todos todoId) w = Resolved ())
  ∧ (∀ todo, outcome (Hook.toggleTodo todo) w = Resolved ()).
Proof.
  split; [|split; [|split]]; intros.
  - rewrite fetchTodos_is_guarded.
    eapply guarded_always_resolves, fetchTodos_remote.
  - rewrite addTodo_is_guarded.
    eapply guarded_always_resolves, createTodo_remote.
  - rewrite deleteTodo_is_guarded.
    eapply guarded_always_resolves, deleteTodo_remote.
  - rewrite toggleTodo_is_guarded.
    eapply guarded_always_resolves, toggleTodo_remote.
Qed.

(** X2: when the API call of [fetchTodos] resolves with [data], the list
    becomes [data], whatever it was, and the loading flag is lowered. *)
Theorem fetchTodos_replaces_list (w : World) (data : list Todo) :
  outcome todoApi.fetchTodos w = Resolved data →
  store (after Hook.fetchTodos w) = Store.mk data false (Store.error (resumed w))
  ∧ list_updates (journal (after Hook.fetchTodos w))
    = list_updates (journal w) ++ [Value data].
Proof.
  intros Hcall. unfold after. rewrite fetchTodos_is_guarded.
  rewrite (guarded_resolved _ _ _ _ _ w data fetchTodos_remote Hcall).
  cbn [snd store journal applyAction]. split; [done|].
  unfold list_updates. by rewrite !omap_app.
Qed.

End Further.

Section Requests.
Context `{Environment}.

Lemma remote_call_sent {A} (call : Async A) evs input init w :
  remote_call call evs → requests evs = [(input, init)] →
  sent call w = [(input, init)].
Proof.
  intros Hremote Hevs. unfold sent.
  rewrite (remote_call_sends call evs input init Hremote Hevs w).
  by rewrite drop_app_length.
Qed.

(** X3: what an operation of the API sends determines the arguments it was
    called with, in whatever worlds the calls are made: two calls of
    [createTodo] that send the same request were given the same name, as
    the quoting of [JSON.stringify] can be undone; two calls of
    [toggleTodo] that send the same request were given the same flag; and
    two calls of [fetchTodo], of [deleteTodo] or of [toggleTodo] that send
    the same request were given the same id, for ids that are safe
    integers, which the URL shows in decimal digits. *)
Theorem todoApi_requests_determine_arguments :
  (∀ n1 n2 (w1 w2 : World),
     sent (todoApi.createTodo n1) w1 = sent (todoApi.createTodo n2) w2 → n1 = n2)
  ∧ (∀ i1 i2 (w1 w2 : World),
       sent (todoApi.fetchTodo i1) w1 = sent (todoApi.fetchTodo i2) w2 →
       safe_integer i1 → safe_integer i2 → i1 = i2)
  ∧ (∀ i1 i2 (w1 w2 : World),
       sent (todoApi.deleteTodo i1) w1 = sent (todoApi.deleteTodo i2) w2 →
       safe_integer i1 → safe_integer i2 → i1 = i2)
  ∧ (∀ i1 b1 i2 b2 (w1 w2 : World),
       sent (todoApi.toggleTodo i1 b1) w1 = sent (todoApi.toggleTodo i2 b2) w2 →
       b1 = b2 ∧ (safe_integer i1 → safe_integer i2 → i1 = i2)).
Proof.
  split; [|split; [|split]].
  - intros n1 n2 w1 w2.
    rewrite (remote_call_sent _ _ _ _ w1 (createTodo_remote n1) eq_refl).
    rewrite (remote_call_sent _ _ _ _ w2 (createTodo_remote n2) eq_refl).
    intros [= Heq]. rewrite !string_app_assoc in Heq.
    change (String dquote EmptyString +:+ "}") with (String dquote "}") in Heq.
    by destruct (quote_chars_inj _ _ _ _ Heq).
  - intros i1 i2 w1 w2.
    rewrite (remote_call_sent _ _ _ _ w1 (fetchTodo_remote i1) eq_refl).
    rewrite (remote_call_sent _ _ _ _ w2 (fetchTodo_remote i2) eq_refl).
    intros [= Heq] _ _. by apply string_app_inv_head, (inj pretty) in Heq.
  - intros i1 i2 w1 w2.
    rewrite (remote_call_sent _ _ _ _ w1 (deleteTodo_remote i1) eq_refl).
    rewrite (remote_call_sent _ _ _ _ w2 (deleteTodo_remote i2) eq_refl).
    intros [= Heq] _ _. by apply string_app_inv_head, (inj pretty) in Heq.
  - intros i1 b1 i2 b2 w1 w2.
    rewrite (remote_call_sent _ _ _ _ w1 (toggleTodo_remote i1 b1) eq_refl).
    rewrite (remote_call_sent _ _ _ _ w2 (toggleTodo_remote i2 b2) eq_refl).
    intros [= Hurl Hbody]. split; [by destruct b1, b2|]. intros _ _.
    by apply string_app_inv_head, (inj pretty) in Hurl.
Qed.

End Requests.

(** * Worked examples *)

(** The toggle of [milk] in the list [bread; milk], answered with
    [milk_done]: [bread] stays, [milk] is replaced. *)
Lemma toggleTodo_replaces_in_place_witness :
  outcome (todoApi.toggleTodo (id milk) (negb (completed milk)))
    (start (alone (answers milk_done)) () [bread; milk])
  = Resolved milk_done
  ∧ Store.todos (store (after (Hook.toggleTodo milk)
                          (start (alone (answers milk_done)) () [bread; milk])))
    !! 0%nat = Some bread
  ∧ Store.todos (store (after (Hook.toggleTodo milk)
                          (start (alone (answers milk_done)) () [bread; milk])))
    !! 1%nat = Some milk_done.
Proof.
  split; [reflexivity|].
  destruct (@toggleTodo_replaces_in_place (alone (answers milk_done)) milk
              (start (alone (answers milk_done)) () [bread; milk]) milk_done eq_refl)
    as (_ & _ & Hother & Hsame).
  split.
  - apply (Hother 0%nat bread); [reflexivity | discriminate].
  - apply (Hsame 1%nat milk); reflexivity.
Defined.

(** The addition of ["bread"] to the list [milk], while another task
    appends [bread] as well: the new todo comes after both. *)
Lemma addTodo_appends_witness :
  outcome (todoApi.createTodo "bread")
    (start (scripted (answers bread) adds_bread) () [milk])
  = Resolved bread
  ∧ Store.todos (store (after (Hook.addTodo "bread")
                          (start (scripted (answers bread) adds_bread) () [milk])))
    = [milk; bread; bread].
Proof.
  split; [reflexivity|].
  exact (proj1 (@addTodo_appends (scripted (answers bread) adds_bread) "bread"
                  (start (scripted (answers bread) adds_bread) () [milk]) bread eq_refl)).
Defined.

(** The list cannot be loaded while offline: the error is set, the
    operation resolves. *)
Lemma useTodos_error_handling_witness :
  outcome todoApi.fetchTodos (start (alone offline) () [])
  = Rejected (OtherError "TypeError" "Failed to fetch")
  ∧ reports Hook.fetchTodos [list_request]
      (ConsoleError (LoggedExn (OtherError "TypeError" "Failed to fetch")))
      "failed to load todos" (start (alone offline) () []).
Proof.
  split; [reflexivity|].
  exact (proj2 (proj1 (@useTodos_error_handling (alone offline)))
           (start (alone offline) () []) _ eq_refl).
Defined.

(** C4, the claim as it is written, fails on a response whose status is
    204 and whose body is empty: [response.ok] is true, and
    [handleResponse] rejects with the [SyntaxError] of [response.json()]
    instead of returning a parsed body. *)
Lemma handleResponse_ok_without_json :
  ok no_content = true
  ∧ outcome (todoApi.handleResponse Unknown no_content)
      (start (alone (Responded no_content)) () [])
    = Rejected (OtherError "SyntaxError" "Unexpected end of JSON input").
Proof. split; reflexivity. Qed.

(** A response of status 404 is rejected with ['API failed 404']. *)
Lemma handleResponse_rule_witness :
  ok not_found = false
  ∧ outcome (todoApi.handleResponse OneTodo not_found)
      (start (alone (Responded not_found)) () [])
    = Rejected (APIError "API failed 404").
Proof.
  split; [reflexivity|].
  exact (proj1 (proj1 (proj2 (proj1 (@handleResponse_rule (alone (Responded not_found)))
                                OneTodo not_found
                                (start (alone (Responded not_found)) () []))))
           eq_refl).
Defined.

(** The creation of ["milk"] and the listing, on a server that answers
    200 with an object that is no todo and no array: each operation
    resolves, with that object. *)
Lemma todoApi_resolves_with_another_shape :
  outcome (erased.createTodo "milk") (start (alone refuses_politely) () [])
  = Resolved quota_reply
  ∧ Todo_of_json quota_reply = None
  ∧ outcome erased.fetchTodos (start (alone refuses_politely) () [])
    = Resolved quota_reply
  ∧ Todos_of_json quota_reply = None.
Proof. repeat split; reflexivity. Qed.

(** The creation of ["bread"] on a server that answers with [bread] as an
    object, one that has the optional members: the API hands back that
    object, and the hook appends the todo it is. *)
Lemma Todo_shape_is_unchecked_witness :
  outcome (erased.createTodo "bread")
    (start (alone (Responded (mkResponse 201 (Parsed (read_as (Todo_to_json bread))))))
       () [milk])
  = Resolved (Todo_to_json bread)
  ∧ Todo_of_json (Todo_to_json bread) = Some bread
  ∧ Store.todos
      (store
         (after (TodosContext.addTodo (useTodos (Store.mk [milk] false None)) "bread")
            (start
               (alone (Responded (mkResponse 201 (Parsed (read_as (Todo_to_json bread))))))
               () [milk])))
    = [milk; bread].
Proof.
  pose proof (@Todo_shape_is_unchecked
                (alone (Responded (mkResponse 201 (Parsed (read_as (Todo_to_json bread)))))))
    as (Hback & _ & _ & Hcreate & _ & _ & _ & _ & Hadd & _).
  split; [|split; [exact (Hback bread)|]].
  - destruct (Hcreate "bread"
                (start (alone (Responded (mkResponse 201
                                 (Parsed (read_as (Todo_to_json bread)))))) () [milk]))
      as (_ & _ & Hbody).
    refine (proj1 (Hbody (read_as (Todo_to_json bread)) _)).
    eexists. split; [reflexivity|]. split; reflexivity.
  - destruct (Hadd (Store.mk [milk] false None) "bread"
                (start (alone (Responded (mkResponse 201
                                 (Parsed (read_as (Todo_to_json bread)))))) () [milk])
                (read_as (Todo_to_json bread))) as (newTodo & Hshape & Hlist).
    + eexists. split; [reflexivity|]. split; reflexivity.
    + reflexivity.
    + change (Some bread = Some newTodo) in Hshape. injection Hshape as <-.
      exact Hlist.
Defined.

(** The deletion of [milk] from a render whose list is [milk], while
    another task appends [bread]: the cell held [milk; bread] when the
    update was applied, and holds the empty list after it. *)
Lemma deleteTodo_filters_captured_list_witness :
  outcome (todoApi.deleteTodo 1)
    (start (scripted (answers milk) adds_bread) () [milk])
  = Resolved (body_of milk Unknown)
  ∧ Store.todos (resumed (start (scripted (answers milk) adds_bread) () [milk]))
    = [milk; bread]
  ∧ Store.todos
      (store (after (TodosContext.deleteTodo
                       (useTodos (Store.mk [milk] false None)) 1)
                (start (scripted (answers milk) adds_bread) () [milk])))
    = [].
Proof.
  split; [reflexivity|]. split; [reflexivity|].
  exact (proj1 (@deleteTodo_filters_captured_list (scripted (answers milk) adds_bread)
                  (Store.mk [milk] false None) 1
                  (start (scripted (answers milk) adds_bread) () [milk])
                  (body_of milk Unknown) eq_refl)).
Defined.

(** A toggle answered with status 404 leaves the list [bread; milk]. *)
Lemma failed_call_leaves_list_witness :
  outcome (todoApi.toggleTodo (id milk) (negb (completed milk)))
    (start (alone (Responded not_found)) () [bread; milk])
  = Rejected (APIError "API failed 404")
  ∧ store (after (Hook.toggleTodo milk)
             (start (alone (Responded not_found)) () [bread; milk]))
    = Store.mk [bread; milk] false (Some "failed to toggle todo").
Proof.
  split; [reflexivity|].
  exact (proj1 (proj2 (proj2 (@failed_call_leaves_list (alone (Responded not_found))
                                (start (alone (Responded not_found)) () [bread; milk])))
                  milk _ eq_refl)).
Defined.

(** Outside every provider the hook throws; under a provider whose value
    is [undefined] it throws as well. *)
Lemma useTodoContext_throws_iff_undefined_witness :
  useContext (@TodosContext.context (alone offline)) [None] = None
  ∧ ∃ e, @useTodoContext (alone offline) [None] = inl e.
Proof.
  split; [reflexivity|].
  exact (proj2 (proj1 (proj1 (@useTodoContext_throws_iff_undefined (alone offline))
                         [None]))
           eq_refl).
Defined.

(** The list is loaded from a server that answers with [milk]. *)
Lemma fetchTodos_replaces_list_witness :
  outcome todoApi.fetchTodos (start (alone (answers milk)) () [bread]) = Resolved [milk]
  ∧ store (after Hook.fetchTodos (start (alone (answers milk)) () [bread]))
    = Store.mk [milk] false None.
Proof.
  split; [reflexivity|].
  exact (proj1 (@fetchTodos_replaces_list (alone (answers milk))
                  (start (alone (answers milk)) () [bread]) [milk] eq_refl)).
Defined.

(** * Operations in a row *)

Section Sequences.
Context `{Environment}.

Lemma seq_resolved {A B} (m : Async A) (k : Async B) w :
  (∃ x, outcome m w = Resolved x) →
  outcome (m;; k) w = outcome k (after m w) ∧ after (m;; k) w = after k (after m w).
Proof.
  intros [x Hx]. unfold outcome, after, mbind, Async_bind in *.
  destruct (m w) as [r w1]. cbn [fst snd] in *. by subst r.
Qed.

(** What a guarded call leaves in the cells, by the result of the call. *)
Lemma guarded_cells {A} (call : Async A) update log message evs w :
  remote_call call evs →
  store (after (guarded call update log message) w)
  = match outcome call w with
    | Resolved x =>
        Store.mk (applyAction (update x) (Store.todos (resumed w)))
                 false (Store.error (resumed w))
    | Rejected _ => Store.mk (Store.todos (resumed w)) false (Some message)
    end.
Proof.
  intros Hremote. unfold after.
  destruct (outcome call w) as [x|e] eqn:Hcall.
  - by rewrite (guarded_resolved call update log message evs w x Hremote Hcall).
  - by rewrite (guarded_rejected call update log message evs w e Hremote Hcall).
Qed.

(** [deleteTodo] is its two parts, one after the other. *)
Lemma deleteTodo_begin_resume (todos : list Todo) (todoId : Z) (w : World) :
  Hook.deleteTodo todos todoId w
  = (answer ← deleteTodo_begin todoId; deleteTodo_resume todos todoId answer) w.
Proof.
  unfold Hook.deleteTodo, deleteTodo_begin, deleteTodo_resume, called, settled.
  unfold_async. by split_answer.
Qed.

(** The part of [deleteTodo] that runs at the call: what the API call
    settles to depends on the state of the server alone. *)
Lemma deleteTodo_begin_run (todoId : Z) (w : World) cells j :
  deleteTodo_begin todoId (mkWorld cells (server w) j)
  = (Resolved (outcome (todoApi.deleteTodo todoId) w),
     mkWorld (pending cells) (server (after (todoApi.deleteTodo todoId) w))
       (j ++ [SetError (Value None); SetIsLoading (Value true);
              delete_request todoId])).
Proof.
  unfold deleteTodo_begin, called, setError, setIsLoading, perform, mbind, Async_bind.
  cbn [store server journal applyAction Store.todos Store.isLoading Store.error].
  rewrite (remote_call_run _ _ w (deleteTodo_remote todoId)).
  unfold pending. by rewrite <- !app_assoc.
Qed.

(** The part that runs when the call has come back with success. *)
Lemma deleteTodo_resume_resolved (todos : list Todo) (todoId : Z) (d : Json)
    (w : World) :
  deleteTodo_resume todos todoId (Resolved d) w
  = (Resolved (),
     mkWorld
       (Store.mk (filter (fun todo => id todo ≠ todoId) todos) false
          (Store.error (concurrent (store w))))
       (server w)
       (journal w
          ++ [SetTodos (Updater (fun _ => filter (fun todo => id todo ≠ todoId) todos));
              SetIsLoading (Value false)])).
Proof.
  unfold deleteTodo_resume, settled. unfold_async. by rewrite <- !app_assoc.
Qed.

(** X4: two deletions asked from one render, the second before the first has
    come back, and both answered with success. [deleteTodo] is the part
    that runs at the call followed by the part that runs at the answer;
    here the two first parts run, then the two second parts in the order
    of the answers. Both DELETE requests are sent, in the order of the
    calls. Both calls captured the same list, so the list ends as the
    captured one without the todos of the call that came back last: of
    the second id if the answers come in the order of the calls, of the
    first id if they come in the other order; the todos of the other id,
    deleted on the server, are in the list again. The loading flag is
    raised twice and then lowered twice: it is down from the first answer
    on, while the other call is still out. *)
Theorem deleteTodo_overlapping_calls (todos : list Todo) (id1 id2 : Z)
    (w : World) (d1 d2 : Json) :
  outcome (todoApi.deleteTodo id1) w = Resolved d1 →
  outcome (todoApi.deleteTodo id2) (after (todoApi.deleteTodo id1) w) = Resolved d2 →
  let in_order := after (deleteTodo_twice todos id1 id2 true) w in
  let out_of_order := after (deleteTodo_twice todos id1 id2 false) w in
  (∀ todoId w0,
     Hook.deleteTodo todos todoId w0
     = (answer ← deleteTodo_begin todoId; deleteTodo_resume todos todoId answer) w0)
  ∧ (∀ answers_in_order,
       requests (journal (after (deleteTodo_twice todos id1 id2 answers_in_order) w))
       = requests (journal w)
           ++ [(todoApi.API_URL +:+ "/" +:+ pretty id1, mkInit (Some "DELETE") [] None);
               (todoApi.API_URL +:+ "/" +:+ pretty id2, mkInit (Some "DELETE") [] None)])
  ∧ (∀ answers_in_order,
       loading_updates
         (journal (after (deleteTodo_twice todos id1 id2 answers_in_order) w))
       = loading_updates (journal w)
           ++ [Value true; Value true; Value false; Value false])
  ∧ Store.todos (store in_order) = filter (fun todo => id todo ≠ id2) todos
  ∧ Store.todos (store out_of_order) = filter (fun todo => id todo ≠ id1) todos
  ∧ (id1 ≠ id2 →
     ∀ todo, todo ∈ todos →
       (id todo = id1 → todo ∈ Store.todos (store in_order))
       ∧ (id todo = id2 → todo ∈ Store.todos (store out_of_order))).
Proof.
  intros H1 H2 in_order out_of_order.
  split; [by intros; apply deleteTodo_begin_resume|].
  assert (∀ answers_in_order,
    after (deleteTodo_twice todos id1 id2 answers_in_order) w
    = after (if answers_in_order : bool
             then deleteTodo_resume todos id1 (Resolved d1);;
                  deleteTodo_resume todos id2 (Resolved d2)
             else deleteTodo_resume todos id2 (Resolved d2);;
                  deleteTodo_resume todos id1 (Resolved d1))
        (mkWorld (pending (pending (store w)))
           (server (after (todoApi.deleteTodo id2) (after (todoApi.deleteTodo id1) w)))
           (journal w
              ++ [SetError (Value None); SetIsLoading (Value true); delete_request id1]
              ++ [SetError (Value None); SetIsLoading (Value true); delete_request id2])))
    as Hbegun.
  { intros order. unfold after at 1, deleteTodo_twice.
    unfold mbind at 1, Async_bind at 1.
    destruct w as [cells s j].
    pose proof (deleteTodo_begin_run id1 (mkWorld cells s j) cells j) as Hfirst.
    cbn [server] in Hfirst. rewrite Hfirst, H1.
    unfold mbind at 1, Async_bind at 1.
    rewrite (deleteTodo_begin_run id2 (after (todoApi.deleteTodo id1) (mkWorld cells s j))),
      H2.
    cbn [store journal]. by rewrite <- !app_assoc. }
  assert (∀ a1 a2 (w0 : World),
    after (deleteTodo_resume todos a1 (Resolved d1);;
           deleteTodo_resume todos a2 (Resolved d2)) w0
    = after (deleteTodo_resume todos a2 (Resolved d2))
        (after (deleteTodo_resume todos a1 (Resolved d1)) w0)) as Hseq.
  { intros a1 a2 w0. unfold after, mbind, Async_bind.
    by rewrite deleteTodo_resume_resolved. }
  assert (∀ a1 a2 (w0 : World),
    after (deleteTodo_resume todos a2 (Resolved d2);;
           deleteTodo_resume todos a1 (Resolved d1)) w0
    = after (deleteTodo_resume todos a1 (Resolved d1))
        (after (deleteTodo_resume todos a2 (Resolved d2)) w0)) as Hseq'.
  { intros a1 a2 w0. unfold after, mbind, Async_bind.
    by rewrite deleteTodo_resume_resolved. }
  assert (Store.todos (store in_order) = filter (fun todo => id todo ≠ id2) todos)
    as Hin_order.
  { subst in_order. rewrite Hbegun, Hseq. unfold after.
    by rewrite !deleteTodo_resume_resolved. }
  assert (Store.todos (store out_of_order) = filter (fun todo => id todo ≠ id1) todos)
    as Hout_of_order.
  { subst out_of_order. rewrite Hbegun, Hseq'. unfold after.
    by rewrite !deleteTodo_resume_resolved. }
  split; [|split; [|split; [done|split; [done|]]]].
  - intros order. rewrite Hbegun.
    destruct order; [rewrite Hseq | rewrite Hseq']; unfold after;
      rewrite !deleteTodo_resume_resolved; cbn [snd journal];
      unfold requests, delete_request; rewrite !omap_app; cbn [omap app];
      by rewrite !app_nil_r.
  - intros order. rewrite Hbegun.
    destruct order; [rewrite Hseq | rewrite Hseq']; unfold after;
      rewrite !deleteTodo_resume_resolved; cbn [snd journal];
      unfold loading_updates, delete_request; rewrite !omap_app; cbn [omap app];
      by rewrite <- !app_assoc.
  - intros Hne todo Hin. rewrite Hin_order, Hout_of_order.
    split; intros Hid; apply list_elem_of_filter; split; congruence.
Qed.

(** X5: two toggles asked from one render of an item send the same request
    twice: the flag is computed from the todo the item was rendered with,
    so the second click does not ask to toggle back. This holds whatever
    the server answers. *)
Theorem toggleTodo_twice_from_one_render (todo : Todo) (w : World) :
  requests (journal (after (Hook.toggleTodo todo;; Hook.toggleTodo todo) w))
  = requests (journal w)
      ++ [(todoApi.API_URL +:+ "/" +:+ pretty (id todo),
           mkInit (Some "PATCH") [("Content-type", "application/json")]
             (Some (JSON_stringify
                      (JObject [("completed", JBool (negb (completed todo)))]))));
          (todoApi.API_URL +:+ "/" +:+ pretty (id todo),
           mkInit (Some "PATCH") [("Content-type", "application/json")]
             (Some (JSON_stringify
                      (JObject [("completed", JBool (negb (completed todo)))]))))].
Proof.
  destruct (seq_resolved (Hook.toggleTodo todo) (Hook.toggleTodo todo) w) as [_ ->].
  { exists (). rewrite toggleTodo_is_guarded.
    eapply guarded_always_resolves, toggleTodo_remote. }
  destruct (toggleTodo_brackets todo (after (Hook.toggleTodo todo) w))
    as (c2 & -> & Hc2 & _).
  destruct (toggleTodo_brackets todo w) as (c1 & -> & Hc1 & _).
  unfold requests in *. rewrite !omap_app, Hc1, Hc2. cbn.
  by rewrite <- app_assoc.
Qed.

End Sequences.

Section Sessions.
Context `{Environment}.

(** What one action leaves, whatever the server answers. *)
Lemma dispatch_run (a : Action) (w : World) :
  ∃ added : list Event,
    journal (after (dispatch a) w) = journal w ++ added
    ∧ length (requests added) = 1%nat
    ∧ loading_updates added = [Value true; Value false]
    ∧ outcome (dispatch a) w = Resolved ()
    ∧ Store.isLoading (store (after (dispatch a) w)) = false
    ∧ ((∀ cells, Store.error (concurrent cells) = Store.error cells) →
       Store.error (store (after (dispatch a) w)) = None
       ∨ Store.error (store (after (dispatch a) w)) = Some (message_of a)).
Proof.
  assert (∀ {A} (call : Async A) update log message evs,
    remote_call call evs →
    (∀ v, log v = ConsoleError v) ∨ (∀ v, log v = ConsoleLog v) →
    length (requests evs) = 1%nat → loading_updates evs = [] →
    ∃ added,
      journal (after (guarded call update log message) w) = journal w ++ added
      ∧ length (requests added) = 1%nat
      ∧ loading_updates added = [Value true; Value false]
      ∧ outcome (guarded call update log message) w = Resolved ()
      ∧ Store.isLoading (store (after (guarded call update log message) w)) = false
      ∧ ((∀ cells, Store.error (concurrent cells) = Store.error cells) →
         Store.error (store (after (guarded call update log message) w)) = None
         ∨ Store.error (store (after (guarded call update log message) w))
           = Some message)) as Hguarded.
  { intros A call update log message evs Hremote Hlog Hreq Hload.
    destruct (guarded_brackets call update log message evs Hremote Hlog w)
      as (closing & Hj & Hc1 & Hc2 & Hflag).
    eexists. split; [exact Hj|].
    split; [|split; [|split; [|split; [done|]]]].
    - unfold requests in *. rewrite !omap_app, Hc1. cbn.
      rewrite app_nil_r. exact Hreq.
    - unfold loading_updates in *. rewrite !omap_app, Hc2, Hload. by cbn.
    - by eapply guarded_always_resolves.
    - intros Hquiet. rewrite (guarded_cells call update log message evs w Hremote).
      destruct (outcome call w); cbn [Store.error]; [left | by right].
      unfold resumed. by rewrite Hquiet. }
  destruct a as [|todoName|todo|todoId]; unfold dispatch, outcome, after;
    cbn [useTodos TodosContext.refetch TodosContext.addTodo
         TodosContext.toggleTodo TodosContext.deleteTodo message_of].
  - rewrite fetchTodos_is_guarded.
    by eapply Hguarded; [apply fetchTodos_remote | left |..].
  - rewrite addTodo_is_guarded.
    by eapply Hguarded; [apply createTodo_remote | left |..].
  - rewrite toggleTodo_is_guarded.
    by eapply Hguarded; [apply toggleTodo_remote | right |..].
  - rewrite deleteTodo_is_guarded.
    by eapply Hguarded; [apply deleteTodo_remote | left |..].
Qed.

(** X6: however many actions are taken one after the other, and whatever the
    server answers to each: the series never rejects, it sends exactly one
    request per action, it raises and lowers the loading flag once per
    action and in that order, and when it ends the flag is down and the
    error is either [null] or the message of the last action: an earlier
    error never outlives a later action (as long as no other task sets the
    error). *)
Theorem session_invariants (actions : list Action) (w : World) :
  let w' := after (session actions) w in
  outcome (session actions) w = Resolved ()
  ∧ length (requests (journal w'))
    = (length (requests (journal w)) + length actions)%nat
  ∧ loading_updates (journal w')
    = loading_updates (journal w)
        ++ concat (replicate (length actions) [Value true; Value false])
  ∧ (∀ a, last actions = Some a →
       Store.isLoading (store w') = false
       ∧ ((∀ cells, Store.error (concurrent cells) = Store.error cells) →
          Store.error (store w') = None
          ∨ Store.error (store w') = Some (message_of a))).
Proof.
  cbv zeta. revert w. induction actions as [|a rest IH]; intros w.
  - cbn. rewrite Nat.add_0_r, app_nil_r. by repeat split.
  - cbn [session].
    destruct (dispatch_run a w) as (added & Hj & Hreq & Hload & Hout & Hflag & Herr).
    destruct (seq_resolved (dispatch a) (session rest) w) as [-> ->]; [by eexists|].
    destruct (IH (after (dispatch a) w)) as (IHout & IHreq & IHload & IHlast).
    split; [done|]. split; [|split].
    + rewrite IHreq, Hj. unfold requests in *. rewrite omap_app, length_app, Hreq.
      cbn. lia.
    + rewrite IHload, Hj. unfold loading_updates in *. rewrite omap_app, Hload.
      cbn. by rewrite <- app_assoc.
    + intros a' Hlast. destruct rest as [|b rest'].
      * injection Hlast as <-. cbn. by split.
      * by apply IHlast.
Qed.

End Sessions.

(** * The rendered page *)

Section Pages.
Context `{Environment}.

(** An item under a provider: its handlers are the operations of the
    render of the hook the provider made. *)
Lemma TodoItem_provided cells providers todo :
  TodoItem (TodoProvider cells providers) todo
  = inr (Element "li"
           [Attr "className" (if completed todo then "completed" else "")]
           [Element "span" [] [Text (name todo)];
            Element "button"
              [OnClick (Hook.deleteTodo (Store.todos cells) (id todo))]
              [Text "Delete"];
            Element "button"
              [Attr "className" "toggle"; OnClick (Hook.toggleTodo todo)]
              [Text (toggle_label todo)];
            Element "Link"
              [Attr "to" ("/todos/" +:+ pretty (id todo)); Attr "className" "link"]
              [Text "Go to detail"]]).
Proof. reflexivity. Qed.

(** The items of a list, under a provider: none throws. *)
Lemma render_each_provided cells providers todos :
  ∃ items,
    render_each (TodoItem (TodoProvider cells providers)) todos = inr items
    ∧ concat (map keys items) = id <$> todos
    ∧ concat (map item_buttons items)
      = (fun todo =>
           (id todo,
            [("Delete", Hook.deleteTodo (Store.todos cells) (id todo));
             (toggle_label todo, Hook.toggleTodo todo)])) <$> todos
    ∧ concat (map buttons items)
      = concat ((fun todo =>
           [("Delete", Hook.deleteTodo (Store.todos cells) (id todo));
            (toggle_label todo, Hook.toggleTodo todo)]) <$> todos)
    ∧ concat (map change_handlers items) = []
    ∧ (∀ tag, tag ≠ "li" → tag ≠ "span" → tag ≠ "button" → tag ≠ "Link" →
         concat (map (elements tag) items) = []).
Proof.
  induction todos as [|todo rest (items & Hrender & Hkeys & Hitems & Hbuttons & Hchange & Htags)].
  - exists []. by repeat split.
  - cbn [render_each]. rewrite TodoItem_provided, Hrender.
    eexists. split; [reflexivity|]. cbn [map concat fmap list_fmap].
    rewrite <- Hkeys, <- Hitems, <- Hbuttons, Hchange.
    split; [reflexivity|].
    split; [by unfold toggle_label; destruct (completed todo)|].
    split; [by unfold toggle_label; destruct (completed todo)|].
    split; [reflexivity|].
    intros tag ? ? ? ?. rewrite (Htags tag) by done.
    cbn [elements map concat]. by rewrite !decide_False.
Qed.

(** The page, for any cells: it renders, and this is what it holds. *)
Lemma page_summary cells todoName :
  ∃ view,
    page cells todoName = inr view
    ∧ keys view = id <$> Store.todos cells
    ∧ item_buttons view
      = (fun todo =>
           (id todo,
            [("Delete", Hook.deleteTodo (Store.todos cells) (id todo));
             (toggle_label todo, Hook.toggleTodo todo)])) <$> Store.todos cells
    ∧ buttons view
      = match Store.error cells with
        | Some (String _ _) => [("Refetch", Hook.fetchTodos)]
        | _ => []
        end
        ++ ("Add", Hook.addTodo todoName)
        :: concat ((fun todo =>
             [("Delete", Hook.deleteTodo (Store.todos cells) (id todo));
              (toggle_label todo, Hook.toggleTodo todo)]) <$> Store.todos cells)
    ∧ change_handlers view = [fun value => Value value]
    ∧ elements "Spinner" view
      = (if Store.isLoading cells && (length (Store.todos cells) =? 0)%nat
         then [[]] else [])
    ∧ elements "ul" view
      = [[Attr "id" "todo-list";
          Attr "className" (if Store.isLoading cells then "isLoading" else "")]]
    ∧ elements "input" view
      = [[Attr "value" todoName; OnChange (fun value => Value value);
          Attr "name" "todo-text"; Attr "placeholder" "What needs to be done?"]].
Proof.
  destruct (render_each_provided cells [] (Store.todos cells))
    as (items & Hrender & Hkeys & Hitems & Hbuttons & Hchange & Htags).
  unfold page, TodosSection.
  change (useTodoContext (TodoProvider cells [])) with (inr (B:=TodosContext.t) (A:=Exn) (useTodos cells)).
  cbn [useTodos TodosContext.todos TodosContext.isLoading TodosContext.error
       TodosContext.refetch TodosContext.addTodo].
  rewrite Hrender. eexists. split; [reflexivity|].
  assert (concat (map (elements "Spinner") items) = []) as Hspin
    by (by apply Htags).
  assert (concat (map (elements "ul") items) = []) as Hul by (by apply Htags).
  assert (concat (map (elements "input") items) = []) as Hinput
    by (by apply Htags).
  destruct (Store.error cells) as [[|c message]|];
    destruct (Store.isLoading cells && (length (Store.todos cells) =? 0)%nat);
    cbn; rewrite ?app_nil_r, ?Hkeys, ?Hitems, ?Hbuttons, ?Hchange,
      ?Hspin, ?Hul, ?Hinput; by repeat split.
Qed.

End Pages.

Section PageProperties.
Context `{Environment}.

Lemma brackets_sends op evs input init :
  brackets op evs → requests evs = [(input, init)] → sends_exactly op input init.
Proof.
  intros Hop Hevs w. destruct (Hop w) as (closing & -> & Hclosing & _).
  unfold requests in *. by rewrite !omap_app, Hevs, Hclosing.
Qed.

Lemma item_labels cells (todos : list Todo) :
  Forall (fun b : string * Async unit =>
            b.1 = "Delete" ∨ b.1 = "Undo" ∨ b.1 = "Complete")
    (concat ((fun todo =>
       [("Delete", Hook.deleteTodo (Store.todos cells) (id todo));
        (toggle_label todo, Hook.toggleTodo todo)]) <$> todos)).
Proof.
  induction todos as [|todo rest IH]; [constructor|].
  cbn. constructor; [by left|]. constructor; [|done].
  right. unfold toggle_label. cbn. destruct (completed todo); [by left | by right].
Qed.

(** X7: rendered outside a [TodoProvider], the section and an item throw the
    error of [useTodoContext]. Under the provider, and with a list cell
    that holds an array of todos, the page renders for every value of the
    three cells: one keyed item per todo, in the order of the list, keyed
    by the id; the error box, with its Refetch button, is there exactly
    when the error is neither [null] nor the empty string. A cell holding
    something else than an array of todos, which a body of another shape
    stored unchecked by [fetchTodos] would be, is outside this
    statement: [cells] is a [Store.t], whose list is a list of todos. *)
Theorem page_renders_under_provider :
  (∀ todoName, TodosSection [] todoName = inl (OtherError "Error" "nejakej error"))
  ∧ (∀ todo, TodoItem [] todo = inl (OtherError "Error" "nejakej error"))
  ∧ (∀ cells todoName, ∃ view,
       page cells todoName = inr view
       ∧ keys view = id <$> Store.todos cells
       ∧ ("Refetch" ∈ (fst <$> buttons view)
          ↔ ∃ message, Store.error cells = Some message ∧ message ≠ EmptyString)).
Proof.
  split; [done|]. split; [done|]. intros cells todoName.
  destruct (page_summary cells todoName) as (view & Hview & Hkeys & _ & Hbuttons & _).
  exists view. split; [done|]. split; [done|]. rewrite Hbuttons.
  assert ("Refetch" ∉ (fst <$> (("Add", Hook.addTodo todoName)
            :: concat ((fun todo =>
                 [("Delete", Hook.deleteTodo (Store.todos cells) (id todo));
                  (toggle_label todo, Hook.toggleTodo todo)]) <$> Store.todos cells))))
    as Hnot.
  { rewrite fmap_cons, not_elem_of_cons. split; [done|].
    intros (b & Hb & Hin)%list_elem_of_fmap.
    pose proof (item_labels cells (Store.todos cells)) as Hlabels.
    rewrite Forall_forall in Hlabels. specialize (Hlabels b Hin).
    rewrite <- Hb in Hlabels. by destruct Hlabels as [|[|]]. }
  destruct (Store.error cells) as [[|c message]|]; cbn [app].
  - split; [done | by intros (m & [= <-] & ?)].
  - split; [by eauto|]. intros _. rewrite fmap_cons. by left.
  - split; [done | by intros (m & [=] & ?)].
Qed.


(** X9: every item of the page has exactly two buttons, which act on the todo
    the item shows: Delete sends the DELETE of that todo's URL, and the
    toggle button sends the PATCH of that todo's URL asking for
    [completed: true] exactly when its label is Complete (and for
    [completed: false] when it is Undo). *)
Theorem item_buttons_act_on_their_todo (cells : Store.t) (todoName : string) :
  ∃ view,
    page cells todoName = inr view
    ∧ Forall2
        (fun todo entry =>
           ∃ del tog label,
             entry = (id todo, [("Delete", del); (label, tog)])
             ∧ (label = "Complete" ∨ label = "Undo")
             ∧ sends_exactly del (todoApi.API_URL +:+ "/" +:+ pretty (id todo))
                 (mkInit (Some "DELETE") [] None)
             ∧ sends_exactly tog (todoApi.API_URL +:+ "/" +:+ pretty (id todo))
                 (mkInit (Some "PATCH") [("Content-type", "application/json")]
                    (Some (JSON_stringify
                       (JObject [("completed",
                                  JBool (bool_decide (label = "Complete")))])))))
        (Store.todos cells) (item_buttons view).
Proof.
  destruct (page_summary cells todoName) as (view & Hview & _ & Hitems & _).
  exists view. split; [done|]. rewrite Hitems.
  apply Forall2_fmap_r, Forall_Forall2_diag, Forall_forall. intros todo _.
  eexists _, _, _. split; [reflexivity|].
  split; [unfold toggle_label; destruct (completed todo); [by right | by left]|].
  split.
  - by eapply brackets_sends; [apply deleteTodo_brackets|].
  - eapply brackets_sends; [apply toggleTodo_brackets|].
    unfold toggle_label. by destruct (completed todo).
Qed.

End PageProperties.

Section PageActions.
Context `{Environment}.

(** X10: a click on the Delete button of the item of [todo], answered with
    success: the DELETE of that todo was sent, and the page re-rendered
    from the cells shows the items of the render the click was made on,
    in order, without those of that id; no item of that id is left. *)
Theorem delete_click_updates_page (cells : Store.t) (todoName : string)
    (todo : Todo) (w : World) (deleted : Json) :
  todo ∈ Store.todos cells →
  outcome (todoApi.deleteTodo (id todo)) w = Resolved deleted →
  ∃ view del others view',
    page cells todoName = inr view
    ∧ (id todo, ("Delete", del) :: others) ∈ item_buttons view
    ∧ requests (journal (after del w))
      = requests (journal w)
          ++ [(todoApi.API_URL +:+ "/" +:+ pretty (id todo),
               mkInit (Some "DELETE") [] None)]
    ∧ page (store (after del w)) todoName = inr view'
    ∧ keys view' = id <$> filter (fun t => id t ≠ id todo) (Store.todos cells)
    ∧ id todo ∉ keys view'.
Proof.
  intros Hin Hcall.
  destruct (page_summary cells todoName) as (view & Hview & _ & Hitems & _).
  destruct (page_summary
              (store (after (Hook.deleteTodo (Store.todos cells) (id todo)) w))
              todoName) as (view' & Hview' & Hkeys' & _).
  exists view, (Hook.deleteTodo (Store.todos cells) (id todo)),
    [(toggle_label todo, Hook.toggleTodo todo)], view'.
  split; [done|]. split.
  { rewrite Hitems. apply list_elem_of_fmap. by exists todo. }
  split.
  { by apply (brackets_sends _ _ _ _ (deleteTodo_brackets _ _)). }
  split; [done|].
  assert (Store.todos
            (store (after (Hook.deleteTodo (Store.todos cells) (id todo)) w))
          = filter (fun t => id t ≠ id todo) (Store.todos cells)) as Hlist.
  { rewrite deleteTodo_is_guarded.
    rewrite (guarded_cells _ _ _ _ _ w (deleteTodo_remote (id todo))).
    by rewrite Hcall. }
  rewrite Hkeys', Hlist. split; [done|].
  intros (t & Hid & [Hne _]%list_elem_of_filter)%list_elem_of_fmap. by apply Hne.
Qed.

(** X11: the form shows the value of its cell in the input; typing sets the
    cell to what the input then holds, whatever it held; a click on Add
    sends the POST whose body carries the value of the cell as it is, the
    empty string included: nothing is trimmed, checked or refused. *)
Theorem form_posts_the_input_as_it_is (cells : Store.t) (todoName : string) :
  ∃ view submit change,
    page cells todoName = inr view
    ∧ ("Add", submit) ∈ buttons view
    ∧ sends_exactly submit todoApi.API_URL
        (mkInit (Some "POST") [("Content-type", "application/json")]
           (Some ("{" +:+ quote "name" +:+ ":" +:+ quote todoName +:+ "}")))
    ∧ attribute "value" <$> elements "input" view = [Some todoName]
    ∧ change_handlers view = [change]
    ∧ ∀ typed previous : string, applyAction (change typed) previous = typed.
Proof.
  destruct (page_summary cells todoName)
    as (view & Hview & _ & _ & Hbuttons & Hchange & _ & _ & Hinput).
  exists view, (Hook.addTodo todoName), (fun value => Value value).
  split; [done|]. split.
  { rewrite Hbuttons. apply elem_of_app. right. by left. }
  split.
  { by apply (brackets_sends _ _ _ _ (addTodo_brackets todoName)). }
  rewrite Hinput. by repeat split.
Qed.

(** X12: when the page shows an error, its first button is Refetch; a click on
    it that the server answers with the list [data] leaves a page with the
    items of [data] and without the error box (as long as no other task
    sets the error meanwhile). *)
Theorem refetch_click_reloads_page (cells : Store.t) (todoName message : string)
    (w : World) (data : list Todo) :
  Store.error cells = Some message →
  message ≠ EmptyString →
  outcome todoApi.fetchTodos w = Resolved data →
  Store.error (resumed w) = None →
  ∃ view refetch view',
    page cells todoName = inr view
    ∧ buttons view !! 0%nat = Some ("Refetch", refetch)
    ∧ page (store (after refetch w)) todoName = inr view'
    ∧ keys view' = id <$> data
    ∧ "Refetch" ∉ (fst <$> buttons view').
Proof.
  intros Herror Hmessage Hcall Hquiet.
  destruct (page_summary cells todoName) as (view & Hview & _ & _ & Hbuttons & _).
  destruct (page_summary (store (after Hook.fetchTodos w)) todoName)
    as (view' & Hview' & Hkeys' & _ & Hbuttons' & _).
  exists view, Hook.fetchTodos, view'.
  split; [done|]. split.
  { rewrite Hbuttons, Herror. by destruct message. }
  split; [done|].
  assert (store (after Hook.fetchTodos w) = Store.mk data false None) as Hcells.
  { rewrite fetchTodos_is_guarded.
    rewrite (guarded_cells _ _ _ _ _ w fetchTodos_remote), Hcall. cbn.
    by rewrite Hquiet. }
  rewrite Hkeys', Hbuttons', Hcells. cbn [Store.todos Store.error app].
  split; [done|].
  rewrite fmap_cons, not_elem_of_cons. split; [done|].
  intros (b & Hb & Hin)%list_elem_of_fmap.
  pose proof (item_labels (Store.mk data false None) data) as Hlabels.
  rewrite Forall_forall in Hlabels. specialize (Hlabels b Hin).
  rewrite <- Hb in Hlabels. by destruct Hlabels as [|[|]].
Qed.

End PageActions.

(** The deletion of [milk] from the page of [bread; milk]: the page shows
    [bread] alone. *)
Lemma delete_click_updates_page_witness :
  milk ∈ Store.todos (Store.mk [bread; milk] false None)
  ∧ outcome (todoApi.deleteTodo (id milk))
      (start (alone (answers milk)) () [bread; milk])
    = Resolved (body_of milk Unknown)
  ∧ ∃ (view : @Node (alone (answers milk)))
      (del : @Async (alone (answers milk)) unit) others
      (view' : @Node (alone (answers milk))),
      @page (alone (answers milk)) (Store.mk [bread; milk] false None) "" = inr view
      ∧ (id milk, ("Delete", del) :: others) ∈ item_buttons view
      ∧ requests (journal (after del (start (alone (answers milk)) () [bread; milk])))
        = requests (journal (start (alone (answers milk)) () [bread; milk]))
            ++ [(todoApi.API_URL +:+ "/" +:+ pretty (id milk),
                 mkInit (Some "DELETE") [] None)]
      ∧ page (store (after del (start (alone (answers milk)) () [bread; milk]))) ""
        = inr view'
      ∧ keys view'
        = id <$> filter (fun t => id t ≠ id milk)
                   (Store.todos (Store.mk [bread; milk] false None))
      ∧ id milk ∉ keys view'.
Proof.
  assert (milk ∈ Store.todos (Store.mk [bread; milk] false None)) as Hin.
  { right. left. }
  split; [exact Hin|]. split; [reflexivity|].
  exact (@delete_click_updates_page (alone (answers milk))
           (Store.mk [bread; milk] false None) "" milk
           (start (alone (answers milk)) () [bread; milk])
           (body_of milk Unknown) Hin eq_refl).
Defined.

(** After a failed load of an empty list, Refetch reloads it. *)
Lemma refetch_click_reloads_page_witness :
  Store.error (Store.mk [] false (Some "failed to load todos"))
  = Some "failed to load todos"
  ∧ "failed to load todos" ≠ EmptyString
  ∧ outcome todoApi.fetchTodos (start (alone (answers milk)) () []) = Resolved [milk]
  ∧ Store.error (resumed (start (alone (answers milk)) () [])) = None
  ∧ ∃ (view : @Node (alone (answers milk)))
      (refetch : @Async (alone (answers milk)) unit)
      (view' : @Node (alone (answers milk))),
      @page (alone (answers milk)) (Store.mk [] false (Some "failed to load todos")) ""
      = inr view
      ∧ buttons view !! 0%nat = Some ("Refetch", refetch)
      ∧ page (store (after refetch (start (alone (answers milk)) () []))) "" = inr view'
      ∧ keys view' = id <$> [milk]
      ∧ "Refetch" ∉ (fst <$> buttons view').
Proof.
  assert ("failed to load todos" ≠ EmptyString) as Hne by discriminate.
  split; [reflexivity|]. split; [exact Hne|]. split; [reflexivity|].
  split; [reflexivity|].
  exact (@refetch_click_reloads_page (alone (answers milk))
           (Store.mk [] false (Some "failed to load todos")) "" "failed to load todos"
           (start (alone (answers milk)) () []) [milk] eq_refl Hne eq_refl eq_refl).
Defined.

(** Two deletions from the render of [bread; milk], of [milk] and then of
    [bread], the second asked before the first has come back, both
    answered with success: if the answers come in the order of the calls
    [milk] is in the list again, and if they come in the other order
    [bread] is. *)
Lemma deleteTodo_overlapping_calls_witness :
  outcome (todoApi.deleteTodo 1) (start (alone (answers milk)) () [bread; milk])
  = Resolved (body_of milk Unknown)
  ∧ outcome (todoApi.deleteTodo 2)
      (after (todoApi.deleteTodo 1) (start (alone (answers milk)) () [bread; milk]))
    = Resolved (body_of milk Unknown)
  ∧ Store.todos
      (store (after (deleteTodo_twice [bread; milk] 1 2 true)
                (start (alone (answers milk)) () [bread; milk])))
    = [milk]
  ∧ Store.todos
      (store (after (deleteTodo_twice [bread; milk] 1 2 false)
                (start (alone (answers milk)) () [bread; milk])))
    = [bread].
Proof.
  split; [reflexivity|]. split; [reflexivity|].
  destruct (@deleteTodo_overlapping_calls (alone (answers milk)) [bread; milk] 1 2
              (start (alone (answers milk)) () [bread; milk])
              (body_of milk Unknown) (body_of milk Unknown) eq_refl eq_refl)
    as (_ & _ & _ & Hin_order & Hout_of_order & _).
  split; [exact Hin_order | exact Hout_of_order].
Defined.
